(** * NFL_Superbowl_Prediction.py: the join / clean / train / predict pipeline

    A shallow embedding of the script [NFL_Superbowl_Prediction.py].  The
    script is a straight-line pandas program: it renames and joins three
    tables, coerces and filters the joined table, fits a linear regression
    and predicts the score of one fixed matchup.  The embedding starts at
    line 25, on the three tables as [pd.read_csv] returned them.

    Modelling choices.
    - A pandas cell is a number, a string or the missing marker [NaN].
      Numbers (float64 in the script) are exact rationals [Qc]; rounding,
      infinities and the one-decimal formatting of the printed scores are
      not modelled.  [predict] returns rationals, so a predicted score that
      is not a number is outside the model of a run; what lines 173-182 do
      with one is stated on [verdict], the same lines with the comparison
      and the subtraction of the numbers as parameters.
    - A [DataFrame] is its list of column labels and its list of rows; a
      row ([Series]) is its index and its values.  Columns carry no dtype:
      a join compares keys cell by cell, the missing marker matching itself
      as it does in pandas.
    - Exceptions and [sys.exit] are explicit: a computation prints lines and
      either returns a value or stops with an exception or an exit code.  A
      printed line is literal text or a constructor carrying the data the
      f-string interpolates.
    - What lives in pandas and scikit-learn and not in the script (the
      numeric lexer behind [pd.to_numeric], [LinearRegression.fit] and
      [predict]) is a variable of the section. *)

From Stdlib Require Import QArith Qcanon.
From stdpp Require Import base decidable option list numbers strings.

Local Open Scope string_scope.
Local Open Scope list_scope.

(** ** Cells *)

Inductive cell : Type :=
  | Num (q : Qc)
  | Str (s : string)
  | NaN.

#[global] Instance cell_eq_dec : EqDecision cell.
Proof. solve_decision. Defined.

#[global] Instance cell_inhabited : Inhabited cell := populate NaN.

(** [pd.isna] on a scalar. *)
Definition isna (c : cell) : bool :=
  match c with
  | NaN => true
  | _ => false
  end.

(** ** Exceptions, exits and printed lines *)

Inductive exn : Type :=
  | KeyError (labels : list string)
  | IndexError
  | ImportError
  | ValueError (msg : string)
  | TypeError
  | MergeError (dups : list string).

#[global] Instance exn_eq_dec : EqDecision exn.
Proof. solve_decision. Defined.

(** A computation of the pandas layer: it raises or returns. *)
Inductive result (A : Type) : Type :=
  | Raise (e : exn)
  | Ok (a : A).
Arguments Raise {A} e.
Arguments Ok {A} a.

Definition rbind {A B} (m : result A) (k : A → result B) : result B :=
  match m with
  | Raise e => Raise e
  | Ok a => k a
  end.

#[global] Instance result_ret : MRet result := λ A a, Ok a.
#[global] Instance result_bind : MBind result := λ A B k m, rbind m k.

(** One printed line.  Literal text is kept as text; lines that interpolate
    data carry the data. *)
Inductive line : Type :=
  | Text (s : string)
  | LoadedGames (n : nat)
  | ErrMissingFeatures (missing_features : list string)
  | AvailableColumns (cols : list string)
  | ErrMissingColumn (e : exn)
  | ErrTraining (e : exn)
  | Traceback (e : exn)
  | ErrSklearnDetails (e : exn)
  | AvailableTeamsSummary (sample : list cell)
  | AvailableTeamsTeams (sample : list cell)
  | ErrRetrieving (e : exn)
  | PatriotsPoints (p : Qc)
  | SeahawksPoints (p : Qc)
  | PredictedWinner (w : string)
  | PredictedMargin (m : Qc)
  | PredictedResult (w : string).

(** How a run of the script stops before its last line. *)
Inductive stop : Type :=
  | Uncaught (e : exn)
  | SysExit (code : Z).

(** The interpreter's exit status: an uncaught exception exits with 1. *)
Definition exit_status (s : stop) : Z :=
  match s with
  | Uncaught _ => 1
  | SysExit code => code
  end.

(** A computation of the script: the lines printed so far, then a stop or a
    value. *)
Record prog (A : Type) : Type := Prog {
  output : list line;
  outcome : stop + A
}.
Arguments Prog {A} output outcome.
Arguments output {A} p.
Arguments outcome {A} p.

Definition pbind {A B} (m : prog A) (k : A → prog B) : prog B :=
  match outcome m with
  | inl s => Prog (output m) (inl s)
  | inr a => Prog (output m ++ output (k a)) (outcome (k a))
  end.

#[global] Instance prog_ret : MRet prog := λ A a, Prog [] (inr a).
#[global] Instance prog_bind : MBind prog := λ A B k m, pbind m k.

Definition say (l : line) : prog unit := Prog [l] (inr tt).
Definition sys_exit {A} (code : Z) : prog A := Prog [] (inl (SysExit code)).
Definition throw {A} (e : exn) : prog A := Prog [] (inl (Uncaught e)).

Definition lift {A} (m : result A) : prog A :=
  match m with
  | Raise e => throw e
  | Ok a => mret a
  end.

(** [try: m  except ... as e: h e].  Every exception of the model derives
    from [Exception]; [SystemExit] does not and passes through. *)
Definition try_except {A} (m : prog A) (h : exn → prog A) : prog A :=
  match outcome m with
  | inl (Uncaught e) => Prog (output m ++ output (h e)) (outcome (h e))
  | _ => m
  end.

(** ** Frames *)

Record Series : Type := mkSeries {
  index : list string;
  values : list cell
}.

Record DataFrame : Type := mkFrame {
  columns : list string;
  rows : list (list cell)
}.

(** Position of the first label equal to [name]. *)
Fixpoint position (name : string) (labels : list string) : option nat :=
  match labels with
  | [] => None
  | l :: labels' =>
      if decide (l = name) then Some 0 else S <$> position name labels'
  end.

(** The cell of a row at a position; a row too short reads as missing. *)
Definition at_pos (i : nat) (r : list cell) : cell := default NaN (r !! i).

(** [row[name]] *)
Definition series_get (s : Series) (name : string) : result cell :=
  match position name (index s) with
  | Some i => Ok (at_pos i (values s))
  | None => Raise (KeyError [name])
  end.

(** [df[name]]: one column. *)
Definition getitem (df : DataFrame) (name : string) : result (list cell) :=
  match position name (columns df) with
  | Some i => Ok (at_pos i <$> rows df)
  | None => Raise (KeyError [name])
  end.

(** [df[names]]: the listed columns, in the listed order; the labels that are
    not columns are reported in the [KeyError]. *)
Definition positions (names labels : list string) : result (list nat) :=
  match filter (λ n, position n labels = None) names with
  | [] => Ok (omap (λ n, position n labels) names)
  | missing => Raise (KeyError missing)
  end.

Definition pick (ps : list nat) (r : list cell) : list cell :=
  (λ i, at_pos i r) <$> ps.

Definition getitems (df : DataFrame) (names : list string) : result DataFrame :=
  ps ← positions names (columns df);
  Ok (mkFrame names (pick ps <$> rows df)).

(** [df.rename(columns=m)]: labels absent from [m] are kept. *)
Definition rename_label (m : list (string * string)) (l : string) : string :=
  match list_find (λ p, p.1 = l) m with
  | Some (_, p) => p.2
  | None => l
  end.

Definition rename (m : list (string * string)) (df : DataFrame) : DataFrame :=
  mkFrame (rename_label m <$> columns df) (rows df).

Definition locate (name : string) (labels : list string) : result nat :=
  match position name labels with
  | Some i => Ok i
  | None => Raise (KeyError [name])
  end.

(** [labels.duplicated()]: a label is flagged when it occurred before. *)
Fixpoint duplicated_from (seen labels : list string) : list bool :=
  match labels with
  | [] => []
  | l :: labels' => bool_decide (l ∈ seen) :: duplicated_from (l :: seen) labels'
  end.

Definition duplicated (labels : list string) : list bool :=
  duplicated_from [] labels.

(** The labels that the suffixes turned into duplicates: flagged after the
    renaming and not before it. *)
Definition suffix_dups (before after : list string) : list string :=
  omap (λ '(l, (a, b)), if a && negb b then Some l else None)
       (zip after (zip (duplicated after) (duplicated before))).

Definition add_suffix (to_rename : list string) (suffix l : string) : string :=
  if decide (l ∈ to_rename) then l +:+ suffix else l.

(** The rows that one row of the left table contributes to a left join:
    one per matching row of the right table, or one padded with missing
    markers when nothing matches. [keep] is what is kept of a right row. *)
Definition join_row (i j : nat) (keep : list cell → list cell) (width : nat)
    (right_rows : list (list cell)) (lrow : list cell) : list (list cell) :=
  match filter (λ r, at_pos j r = at_pos i lrow) right_rows with
  | [] => [lrow ++ replicate width NaN]
  | matches => (λ r, lrow ++ keep r) <$> matches
  end.

(** [left.merge(right, left_on=.., right_on=.., how="left", suffixes=..)].
    With [left_on = right_on] this is [on=..]: the key column of the right
    table is not repeated.  Labels common to both tables get the suffixes. *)
Definition merge (left right : DataFrame) (left_on right_on : string)
    (suffixes : string * string) : result DataFrame :=
  j ← locate right_on (columns right);
  i ← locate left_on (columns left);
  let same := bool_decide (left_on = right_on) in
  let rcols := if same then delete j (columns right) else columns right in
  let keep := if same then delete j else id in
  let to_rename := filter (λ l, l ∈ rcols) (columns left) in
  let llabels := add_suffix to_rename suffixes.1 <$> columns left in
  let rlabels := add_suffix to_rename suffixes.2 <$> rcols in
  match suffix_dups (columns left) llabels ++ suffix_dups rcols rlabels with
  | [] =>
      Ok (mkFrame (llabels ++ rlabels)
            (rows left ≫= join_row i j keep (length rlabels) (rows right)))
  | dups => Raise (MergeError dups)
  end.

(** Keep the entries of a list whose flag is set. *)
Fixpoint keep_mask {A} (mask : list bool) (l : list A) : list A :=
  match mask, l with
  | b :: mask', x :: l' => if b then x :: keep_mask mask' l' else keep_mask mask' l'
  | _, _ => []
  end.

(** [df.drop(columns=names)]: every column carrying one of the labels goes;
    a label that is no column is a [KeyError]. *)
Definition drop_columns (names : list string) (df : DataFrame) : result DataFrame :=
  match filter (λ n, n ∉ columns df) names with
  | [] =>
      let mask := (λ l, bool_decide (l ∉ names)) <$> columns df in
      Ok (mkFrame (keep_mask mask (columns df)) (keep_mask mask <$> rows df))
  | missing => Raise (KeyError missing)
  end.

(** [df[name] = vals] for an existing column; a new label adds a column. *)
Definition setitem (df : DataFrame) (name : string) (vals : list cell) : DataFrame :=
  match position name (columns df) with
  | Some i => mkFrame (columns df) (zip_with (λ r v, <[i:=v]> r) (rows df) vals)
  | None => mkFrame (columns df ++ [name]) (zip_with (λ r v, r ++ [v]) (rows df) vals)
  end.

(** [df.dropna(subset=names)]: a row stays when none of the listed cells is
    missing. *)
Definition complete (ps : list nat) (r : list cell) : bool :=
  forallb (λ i, negb (isna (at_pos i r))) ps.

Definition dropna (subset : list string) (df : DataFrame) : result DataFrame :=
  ps ← positions subset (columns df);
  Ok (mkFrame (columns df) (filter (λ r, complete ps r) (rows df))).

(** [df[df[name] == v]]: the rows whose cell under [name] equals [v]. *)
Definition where_eq (df : DataFrame) (name : string) (v : cell) : result DataFrame :=
  i ← locate name (columns df);
  Ok (mkFrame (columns df) (filter (λ r, at_pos i r = v) (rows df))).

(** [df.iloc[0]] *)
Definition iloc0 (df : DataFrame) : result Series :=
  match rows df with
  | [] => Raise IndexError
  | r :: _ => Ok (mkSeries (columns df) r)
  end.

(** [s.unique()]: first occurrences, in order. *)
Fixpoint unique (l : list cell) : list cell :=
  match l with
  | [] => []
  | c :: l' => c :: filter (λ d, d ≠ c) (unique l')
  end.

(** A dict literal, as the list of its items. *)
Fixpoint dict_get (d : list (string * cell)) (k : string) : option cell :=
  match d with
  | [] => None
  | (k', v) :: d' => if decide (k' = k) then Some v else dict_get d' k
  end.

(** [pd.DataFrame([d], columns=cols)]: one row, the columns as listed; a
    column that is no key of [d] is missing. *)
Definition frame_of_dict (d : list (string * cell)) (cols : list string) : DataFrame :=
  mkFrame cols [(λ c, default NaN (dict_get d c)) <$> cols].

(** [s.mean()]: missing cells are skipped, an empty selection gives the
    missing marker, a string cannot be averaged. *)
Definition number (c : cell) : option Qc :=
  match c with
  | Num q => Some q
  | _ => None
  end.

Definition is_str (c : cell) : bool :=
  match c with
  | Str _ => true
  | _ => false
  end.

Definition mean (col : list cell) : result cell :=
  if existsb is_str col then Raise TypeError
  else
    match omap number col with
    | [] => Ok NaN
    | q :: qs =>
        Ok (Num (foldr Qcplus 0%Qc (q :: qs) / Q2Qc (inject_Z (Z.of_nat (length (q :: qs)))))%Qc)
    end.

(** ['=' * 60] *)
Fixpoint times (c : string) (n : nat) : string :=
  match n with
  | 0 => ""
  | S n' => c +:+ times c n'
  end.

Definition rule : string := times "=" 60.
Definition newline : string := String (Ascii.ascii_of_nat 10) "".

(** ** The script *)

Definition PATRIOTS : string := "New England Patriots".
Definition SEAHAWKS : string := "Seattle Seahawks".
Definition WPOS : string := "Weighted Playoff Offense Score".
Definition MOMENTUM : string := "Offensive Momentum".
Definition OPP_ALLOWED : string := "opp_avg_points_allowed".
Definition OPP_TIER : string := "opp_def_tier".
Definition AVG_ALLOWED : string := "Average Points Allowed Per Game".
Definition AVG_SCORED : string := "Average Points Scored Per Game".
Definition TIER_RANK : string := "Defensive Tier Rank".

(** Lines 81-86. *)
Definition features : list string := [WPOS; MOMENTUM; OPP_ALLOWED; OPP_TIER].

(** Lines 25-39: the renamings and the opponent-defense projection. *)
Definition rename_games : DataFrame → DataFrame :=
  rename [("Points Scored", "points_scored");
          ("Opponent Defensive Tier", OPP_TIER);
          ("Game #", "game_num")].

Definition rename_summary : DataFrame → DataFrame :=
  rename [("Tier 1 Avg Points", "tier1_avg");
          ("Tier 2 Avg Points", "tier2_avg");
          ("Tier 3 Avg Points", "tier3_avg");
          ("Tier 4 Avg Points", "tier4_avg")].

Definition teams_opp (teams : DataFrame) : result DataFrame :=
  sel ← getitems teams ["Team"; AVG_ALLOWED];
  Ok (rename [(AVG_ALLOWED, OPP_ALLOWED)] sel).

(** Lines 42-53: the two left joins, on the renamed tables. *)
Definition join (games summary opp : DataFrame) : result DataFrame :=
  g1 ← merge games summary "Team" "Team" ("_x", "_y");
  g2 ← merge g1 opp "Opponent" "Team" ("", "_opp");
  drop_columns ["Team_opp"] g2.

(** Lines 25-53 on the tables as read. *)
Definition join_tables (games summary teams : DataFrame) : result DataFrame :=
  opp ← teams_opp teams;
  join (rename_games games) (rename_summary summary) opp.

(** Lines 173-182. *)
Definition winner_margin (pat_pred sea_pred : Qc) : string * Qc :=
  if decide (sea_pred < pat_pred)%Qc then (PATRIOTS, (pat_pred - sea_pred)%Qc)
  else if decide (pat_pred < sea_pred)%Qc then (SEAHAWKS, (sea_pred - pat_pred)%Qc)
  else ("Tie", 0%Qc).

Definition winner (pat_pred sea_pred : Qc) : string := (winner_margin pat_pred sea_pred).1.
Definition margin (pat_pred sea_pred : Qc) : Qc := (winner_margin pat_pred sea_pred).2.

Section Script.

(** The numeric lexer of pandas: the number a string denotes, if any. *)
Variable parse_num : string → option Qc.

(** scikit-learn: whether it can be imported, the fitted model, fitting on
    the feature table and the target column, and prediction on a table. *)
Variable sklearn_installed : bool.
Variable model : Type.
Variable fit : DataFrame → list cell → result model.
Variable predict : model → DataFrame → result (list Qc).

(** [pd.to_numeric(c, errors='coerce')] on one value: what does not parse
    becomes the missing marker. *)
Definition to_numeric (c : cell) : cell :=
  match c with
  | Num q => Num q
  | Str s =>
      match parse_num s with
      | Some q => Num q
      | None => NaN
      end
  | NaN => NaN
  end.

(** Lines 56-62: the cleaning step. *)
Definition clean (games : DataFrame) : result DataFrame :=
  col ← getitem games WPOS;
  let games := setitem games WPOS (to_numeric <$> col) in
  dropna [WPOS; MOMENTUM; OPP_ALLOWED; OPP_TIER] games.

(** Lines 72-77. *)
Definition import_sklearn : prog unit :=
  if sklearn_installed then mret tt
  else
    say (Text "ERROR: scikit-learn is not installed. Please install it with: pip install scikit-learn");;
    say (ErrSklearnDetails ImportError);;
    sys_exit 1.

(** Lines 88-111: the fitted model and the feature table [X]. *)
Definition train_body (games : DataFrame) : prog (model * DataFrame) :=
  X ← lift (getitems games features);
  y ← lift (getitem games "points_scored");
  let missing_features := filter (λ f, f ∉ columns games) features in
  match missing_features with
  | _ :: _ =>
      say (ErrMissingFeatures missing_features);;
      say (AvailableColumns (columns games));;
      sys_exit 1
  | [] =>
      m ← lift (fit X y);
      say (Text "MODEL TRAINED");;
      mret (m, X)
  end.

Definition train_handler (games : DataFrame) (e : exn) : prog (model * DataFrame) :=
  match e with
  | KeyError _ =>
      say (ErrMissingColumn e);;
      say (AvailableColumns (columns games));;
      sys_exit 1
  | _ =>
      say (ErrTraining e);;
      say (Traceback e);;
      sys_exit 1
  end.

Definition train (games : DataFrame) : prog (model * DataFrame) :=
  try_except (train_body games) (train_handler games).

(** Line 114. *)
Definition mean_weighted_score (X : DataFrame) : result cell :=
  col ← getitem X WPOS;
  mean col.

(** [df[df["Team"] == name].iloc[0]] *)
Definition team_row (df : DataFrame) (name : string) : result Series :=
  sel ← where_eq df "Team" (Str name);
  iloc0 sel.

(** Lines 117-131: the four rows of the matchup. *)
Definition could_not_find : string :=
  "ERROR: Could not find team data. Please check that 'New England Patriots' and 'Seattle Seahawks' exist in the data.".

Definition lookup_body (summary teams : DataFrame)
    : prog (Series * Series * Series * Series) :=
  pat_off ← lift (team_row summary PATRIOTS);
  sea_def ← lift (team_row teams SEAHAWKS);
  sea_off ← lift (team_row summary SEAHAWKS);
  pat_def ← lift (team_row teams PATRIOTS);
  mret (pat_off, sea_def, sea_off, pat_def).

Definition lookup_handler (summary teams : DataFrame) (e : exn)
    : prog (Series * Series * Series * Series) :=
  match e with
  | IndexError =>
      say (Text could_not_find);;
      s ← lift (getitem summary "Team");
      say (AvailableTeamsSummary (take 10 (unique s)));;
      t ← lift (getitem teams "Team");
      say (AvailableTeamsTeams (take 10 (unique t)));;
      sys_exit 1
  | _ =>
      say (ErrRetrieving e);;
      sys_exit 1
  end.

Definition lookup (summary teams : DataFrame)
    : prog (Series * Series * Series * Series) :=
  try_except (lookup_body summary teams) (lookup_handler summary teams).

(** Lines 134-139. *)
Definition get_weighted_score (team_off team_def_data : Series) : result cell :=
  raw ← series_get team_off WPOS;
  let score := to_numeric raw in
  if isna score then series_get team_def_data AVG_SCORED
  else Ok score.

(** Lines 142-148 and 159-165: the one-row table of a prediction, for the
    team whose rows are [off] (summary) and [own] (teams) against the
    opponent whose row of the teams table is [opp_def]. *)
Definition feature_frame (teams : DataFrame) (team : string)
    (off opp_def : Series) : result DataFrame :=
  own ← team_row teams team;
  weighted_score ← get_weighted_score off own;
  momentum ← series_get off MOMENTUM;
  allowed ← series_get opp_def AVG_ALLOWED;
  tier ← series_get opp_def TIER_RANK;
  Ok (frame_of_dict [(WPOS, weighted_score); (MOMENTUM, momentum);
                     (OPP_ALLOWED, allowed); (OPP_TIER, tier)] features).

(** [model.predict(df)[0]] *)
Definition predict0 (m : model) (df : DataFrame) : result Qc :=
  ps ← predict m df;
  match ps with
  | [] => Raise IndexError
  | p :: _ => Ok p
  end.

Definition pat_df (teams : DataFrame) (pat_off sea_def : Series) : result DataFrame :=
  feature_frame teams PATRIOTS pat_off sea_def.

Definition sea_df (teams : DataFrame) (sea_off pat_def : Series) : result DataFrame :=
  feature_frame teams SEAHAWKS sea_off pat_def.

(** Lines 184-190. *)
Definition report (pat_pred sea_pred : Qc) : prog unit :=
  let '(winner, margin) := winner_margin pat_pred sea_pred in
  say (Text (newline +:+ rule));;
  (if decide (winner ≠ "Tie") then
     say (PredictedWinner winner);;
     say (PredictedMargin margin)
   else say (PredictedResult winner));;
  say (Text (rule +:+ newline)).

(** Lines 141-190. *)
Definition predict_and_report (m : model) (teams : DataFrame)
    (pat_off sea_def sea_off pat_def : Series) : prog unit :=
  df1 ← lift (pat_df teams pat_off sea_def);
  pat_pred ← lift (predict0 m df1);
  say (Text (newline +:+ rule));;
  say (Text "PREDICTION: New England Patriots vs Seattle Seahawks");;
  say (Text rule);;
  df2 ← lift (sea_df teams sea_off pat_def);
  sea_pred ← lift (predict0 m df2);
  say (PatriotsPoints pat_pred);;
  say (SeahawksPoints sea_pred);;
  report pat_pred sea_pred.

Definition features_line : string :=
  "Features: Weighted Playoff Offense Score, Offensive Momentum, Opponent Avg Points Allowed, Opponent Defensive Tier".

(** Lines 25-112: everything up to the fitted model. *)
Definition prepare (games summary teams : DataFrame) : prog (model * DataFrame) :=
  joined ← lift (join_tables games summary teams);
  cleaned ← lift (clean joined);
  say (LoadedGames (length (rows cleaned)));;
  say (Text features_line);;
  import_sklearn;;
  train cleaned.

(** Lines 116-190. *)
Definition finish (m : model) (summary teams : DataFrame) : prog unit :=
  '(pat_off, sea_def, sea_off, pat_def) ← lookup summary teams;
  predict_and_report m teams pat_off sea_def sea_off pat_def.

(** The script from line 25 on, on the three tables as read. *)
Definition main (games summary teams : DataFrame) : prog unit :=
  '(m, X) ← prepare games summary teams;
  _ ← lift (mean_weighted_score X);
  finish m (rename_summary summary) teams.

(** The script with line 114 removed. *)
Definition main_without_mean (games summary teams : DataFrame) : prog unit :=
  '(m, X) ← prepare games summary teams;
  finish m (rename_summary summary) teams.

End Script.

(** ** Vocabulary of the statements *)

(** The cell a row holds under a label, for a table with the given columns;
    missing when the label is no column. *)
Definition cell_of (cols : list string) (r : list cell) (name : string) : cell :=
  match position name cols with
  | Some i => at_pos i r
  | None => NaN
  end.

(** A row in which none of the four features is missing. *)
Definition has_features (cols : list string) (r : list cell) : Prop :=
  Forall (λ f, isna (cell_of cols r f) = false) features.

#[global] Instance has_features_dec cols r : Decision (has_features cols r).
Proof. unfold has_features. apply _. Defined.

(** The row after the coercion of the cell at position [i]. *)
Definition coerce_row (parse_num : string → option Qc) (i : nat) (r : list cell)
    : list cell :=
  <[i := to_numeric parse_num (at_pos i r)]> r.

(** A [predict] that first checks what it is given: the four training
    columns, in the training order, and four entries in every row. *)
Definition checked {model : Type} (predict : model → DataFrame → result (list Qc))
    (m : model) (df : DataFrame) : result (list Qc) :=
  if bool_decide (columns df = features ∧ Forall (λ r, length r = 4) (rows df))
  then predict m df
  else Raise (ValueError "The feature names should match those that were passed during fit.").

(** The Team column of a table as read; empty when there is none. *)
Definition team_column (df : DataFrame) : list cell :=
  match position "Team" (columns df) with
  | Some i => at_pos i <$> rows df
  | None => []
  end.

(** What a left join appends to a left row whose key is [k], when the keys
    of the right table are pairwise distinct: what is kept of the matching
    right row, or missing markers. *)
Definition matched (j : nat) (keep : list cell → list cell) (width : nat)
    (right_rows : list (list cell)) (k : cell) : list cell :=
  match filter (λ r, at_pos j r = k) right_rows with
  | [] => replicate width NaN
  | r :: _ => keep r
  end.

(** A team that has a row in a table. *)
Definition has_team (df : DataFrame) (name : string) : Prop :=
  Str name ∈ team_column df.

#[global] Instance has_team_dec df name : Decision (has_team df name).
Proof. unfold has_team. apply _. Defined.

(** What the handler of lines 124-128 prints. *)
Definition team_report (summary teams : DataFrame) : list line :=
  [Text could_not_find;
   AvailableTeamsSummary (take 10 (unique (team_column summary)));
   AvailableTeamsTeams (take 10 (unique (team_column teams)))].

(** The lines that state a prediction. *)
Definition is_prediction (l : line) : bool :=
  match l with
  | PatriotsPoints _ | SeahawksPoints _
  | PredictedWinner _ | PredictedMargin _ | PredictedResult _ => true
  | _ => false
  end.

(** A computation that prints no prediction and, if it stops, stops with
    exit status 1. *)
Definition fruitless {A} (p : prog A) : Prop :=
  Forall (λ l, is_prediction l = false) (output p) ∧
  ∀ s, outcome p = inl s → exit_status s = 1%Z.

(** Whether [needle] occurs in [hay]. *)
Fixpoint contains (needle hay : string) : bool :=
  if String.prefix needle hay then true
  else
    match hay with
    | EmptyString => false
    | String _ hay' => contains needle hay'
    end.

(** ** Sample data

    A lexer that reads unsigned decimal integers and nothing else, and small
    tables, for running the definitions. *)
Module Sample.

Fixpoint digits (s : string) (acc : N) : option N :=
  match s with
  | EmptyString => Some acc
  | String c s' =>
      let n := Ascii.N_of_ascii c in
      if ((48 <=? n) && (n <=? 57))%N then digits s' (acc * 10 + (n - 48))%N
      else None
  end.

Definition parse_num (s : string) : option Qc :=
  match s with
  | EmptyString => None
  | _ => (λ n, Q2Qc (inject_Z (Z.of_N n))) <$> digits s 0%N
  end.

Definition num (z : Z) : cell := Num (Q2Qc (inject_Z z)).

(** Summary.csv: the Seahawks' score is the dash placeholder. *)
Definition summary : DataFrame :=
  mkFrame ["Team"; WPOS; MOMENTUM]
    [[Str PATRIOTS; Str "27"; num 3];
     [Str SEAHAWKS; Str "--"; num 2]].

(** Teams.csv *)
Definition teams : DataFrame :=
  mkFrame ["Team"; AVG_ALLOWED; AVG_SCORED; TIER_RANK]
    [[Str PATRIOTS; num 18; num 28; num 1];
     [Str SEAHAWKS; num 20; num 25; num 2]].

(** Games.csv: the third game has no points recorded, the fourth is
    against a team that is in no table. *)
Definition games : DataFrame :=
  mkFrame ["Team"; "Opponent"; "Game #"; "Points Scored"; "Opponent Defensive Tier"]
    [[Str PATRIOTS; Str SEAHAWKS; num 1; num 24; num 2];
     [Str SEAHAWKS; Str PATRIOTS; num 1; num 17; num 1];
     [Str PATRIOTS; Str SEAHAWKS; num 2; NaN; num 2];
     [Str PATRIOTS; Str "Chicago Bears"; num 3; num 30; NaN]].

(** Summary.csv without the Seahawks, and one complete game. *)
Definition summary_pats : DataFrame :=
  mkFrame (columns summary) (take 1 (rows summary)).

Definition games_one : DataFrame :=
  mkFrame (columns games) (take 1 (rows games)).

(** Summary.csv with the Patriots listed twice. *)
Definition summary_twice : DataFrame :=
  mkFrame (columns summary) (rows summary ++ take 1 (rows summary)).

(** Games.csv with the two offensive columns of Summary.csv in it as well. *)
Definition games_scored : DataFrame :=
  mkFrame ["Team"; "Opponent"; "Game #"; "Points Scored"; "Opponent Defensive Tier";
           WPOS; MOMENTUM]
    [[Str PATRIOTS; Str SEAHAWKS; num 1; num 24; num 2; Str "27"; num 3];
     [Str SEAHAWKS; Str PATRIOTS; num 1; num 17; num 1; Str "--"; num 2]].

(** A stand-in for the regression: fitting refuses an empty table and a
    missing target, the prediction of a row is the sum of its numbers. *)
Definition model : Type := unit.

Definition fit (X : DataFrame) (y : list cell) : result model :=
  if existsb isna y then Raise (ValueError "Input y contains NaN.")
  else
    match rows X with
    | [] => Raise (ValueError "Found array with 0 sample(s)")
    | _ => Ok tt
    end.

Definition predict (m : model) (df : DataFrame) : result (list Qc) :=
  Ok ((λ r, foldr Qcplus 0%Qc (omap number r)) <$> rows df).

(** The joined and the cleaned table of the sample. *)
Definition joined : DataFrame :=
  Eval vm_compute in
    match join_tables games summary teams with
    | Ok df => df
    | Raise _ => mkFrame [] []
    end.

Definition joined_scored : DataFrame :=
  Eval vm_compute in
    match join_tables games_scored summary teams with
    | Ok df => df
    | Raise _ => mkFrame [] []
    end.

Definition cleaned : DataFrame :=
  Eval vm_compute in
    match clean parse_num joined with
    | Ok df => df
    | Raise _ => mkFrame [] []
    end.

Definition pat_off : Series := mkSeries (columns summary) [Str PATRIOTS; Str "27"; num 3].
Definition sea_off : Series := mkSeries (columns summary) [Str SEAHAWKS; Str "--"; num 2].
Definition pat_def : Series := mkSeries (columns teams) [Str PATRIOTS; num 18; num 28; num 1].
Definition sea_def : Series := mkSeries (columns teams) [Str SEAHAWKS; num 20; num 25; num 2].

End Sample.

(** ** The loader

    Lines 6-23.  The file system is what the script asks of it: whether a
    path exists, the working directory, and what [pd.read_csv] returns for a
    path.  An exception of [pd.read_csv] never leaves these lines, so it is
    kept apart from the exceptions of the rest of the script: it is the
    [FileNotFoundError] of the first handler or any other [Exception], and
    carries the text that [str] gives. *)

Inductive read_error : Type :=
  | FileNotFoundError (msg : string)
  | OtherReadError (msg : string).

Definition required_files : list string := ["Games.csv"; "Summary.csv"; "Teams.csv"].

Section Loader.

Variable exists_file : string → bool.
Variable cwd : string.
Variable read_csv : string → read_error + DataFrame.

(** Lines 8-12, on the files still to check. *)
Fixpoint check_files (files : list string) : prog unit :=
  match files with
  | [] => mret tt
  | file :: files' =>
      if exists_file file then check_files files'
      else
        say (Text ("ERROR: " +:+ file +:+ " not found in current directory!"));;
        say (Text ("Current directory: " +:+ cwd));;
        sys_exit 1
  end.

(** Lines 15-17: the three reads, in order, up to the first that raises. *)
Definition read_all : read_error + (DataFrame * DataFrame * DataFrame) :=
  match read_csv "Games.csv" with
  | inl e => inl e
  | inr games =>
      match read_csv "Summary.csv" with
      | inl e => inl e
      | inr summary =>
          match read_csv "Teams.csv" with
          | inl e => inl e
          | inr teams => inr (games, summary, teams)
          end
      end
  end.

(** Lines 14-23. *)
Definition load : prog (DataFrame * DataFrame * DataFrame) :=
  match read_all with
  | inr tables => mret tables
  | inl (FileNotFoundError msg) =>
      say (Text ("ERROR: Could not find required CSV file: " +:+ msg));;
      sys_exit 1
  | inl (OtherReadError msg) =>
      say (Text ("ERROR reading CSV files: " +:+ msg));;
      sys_exit 1
  end.

Variable parse_num : string → option Qc.
Variable sklearn_installed : bool.
Variable model : Type.
Variable fit : DataFrame → list cell → result model.
Variable predict : model → DataFrame → result (list Qc).

(** The whole script. *)
Definition script : prog unit :=
  check_files required_files;;
  '(games, summary, teams) ← load;
  main parse_num sklearn_installed model fit predict games summary teams.

End Loader.

(** ** Vocabulary of the statements about whole runs *)

(** The line a failed read ends with. *)
Definition read_error_line (e : read_error) : line :=
  match e with
  | FileNotFoundError msg => Text ("ERROR: Could not find required CSV file: " +:+ msg)
  | OtherReadError msg => Text ("ERROR reading CSV files: " +:+ msg)
  end.

(** A run that went to its end: it printed the two scores, once and in this
    order, then the verdict, and nothing that states a prediction before. *)
Definition concluded (p : prog unit) : Prop :=
  outcome p = inr tt ∧
  ∃ pre a b,
    Forall (λ l, is_prediction l = false) pre ∧
    output p = pre ++ PatriotsPoints a :: SeahawksPoints b :: output (report a b).

(** A run that stopped early with status 1 and no prediction, or went to
    its end. *)
Definition settled (p : prog unit) : Prop :=
  (fruitless p ∧ ∃ s, outcome p = inl s) ∨ concluded p.

(** The last character of a string. *)
Fixpoint last_ascii (s : string) : option Ascii.ascii :=
  match s with
  | EmptyString => None
  | String c EmptyString => Some c
  | String _ s' => last_ascii s'
  end.

(** Sample file systems. *)
Module Files.

Definition all_there (file : string) : bool := true.

Definition no_summary (file : string) : bool :=
  bool_decide (file ≠ "Summary.csv").

Definition read_csv (file : string) : read_error + DataFrame :=
  if decide (file = "Games.csv") then inr Sample.games_one
  else if decide (file = "Summary.csv") then inr Sample.summary
  else if decide (file = "Teams.csv") then inr Sample.teams
  else inl (FileNotFoundError file).

(** Teams.csv is there and does not parse. *)
Definition read_csv_bad_teams (file : string) : read_error + DataFrame :=
  if decide (file = "Teams.csv")
  then inl (OtherReadError "Error tokenizing data. C error: Expected 4 fields in line 3, saw 5")
  else read_csv file.

End Files.

(** More sample tables: a cleaned table without the target column, and
    one that the cleaning step has emptied. *)
Module More.

Definition no_target : DataFrame :=
  mkFrame [WPOS; MOMENTUM; OPP_ALLOWED; OPP_TIER]
    [[Sample.num 27; Sample.num 3; Sample.num 20; Sample.num 2]].

Definition emptied : DataFrame := mkFrame (columns Sample.cleaned) [].

(** Games.csv with the one game of the Seahawks, whose weighted score is the
    dash placeholder. *)
Definition games_dash : DataFrame :=
  mkFrame (columns Sample.games) (take 1 (drop 1 (rows Sample.games))).

(** The four feature columns of the cleaned sample table. *)
Definition X : DataFrame :=
  Eval vm_compute in
    match getitems Sample.cleaned features with
    | Ok df => df
    | Raise _ => mkFrame [] []
    end.

End More.

(** A sample of a column as the handler of lines 124-128 prints it: at most
    ten of its values, each once, in the order of their first occurrence;
    all of them when there are at most ten. *)
Definition is_sample (sample col : list cell) : Prop :=
  (length sample ≤ 10)%nat ∧
  NoDup sample ∧
  (∀ c, c ∈ sample → c ∈ col) ∧
  sample `prefix_of` unique col ∧
  ((length (unique col) ≤ 10)%nat → ∀ c, c ∈ col → c ∈ sample).

(** ** Vocabulary of the statements about labels and names *)

(** The table with the same labels and no row: the header line of the
    file. *)
Definition header (df : DataFrame) : DataFrame := mkFrame (columns df) [].



(** Tables with blank cells, a missing column or a missing team. *)
Module Gaps.



(** Summary.csv without the column of the momentum. *)
Definition summary_no_momentum : DataFrame :=
  mkFrame ["Team"; WPOS]
    [[Str PATRIOTS; Str "27"];
     [Str SEAHAWKS; Str "--"]].

(** The table the joins make of it. *)
Definition joined_no_momentum : DataFrame :=
  Eval vm_compute in
    match join_tables Sample.games summary_no_momentum Sample.teams with
    | Ok joined => joined
    | Raise _ => mkFrame [] []
    end.

(** Teams.csv without the Seahawks. *)
Definition teams_pats : DataFrame :=
  mkFrame (columns Sample.teams) (take 1 (rows Sample.teams)).

End Gaps.

(** ** The verdict on numbers that need not be ordered *)

(** Lines 173-182 once more, for any type of numbers with its [>], its [-]
    and its zero.  This is what the lines compute on float64, where a score
    that is not a number is neither greater nor smaller than any other. *)
Definition verdict {num : Type} (gt : num → num → bool) (sub : num → num → num)
    (zero : num) (pat_pred sea_pred : num) : string * num :=
  if gt pat_pred sea_pred then (PATRIOTS, sub pat_pred sea_pred)
  else if gt sea_pred pat_pred then (SEAHAWKS, sub sea_pred pat_pred)
  else ("Tie", zero).

(** [p > q] on rationals. *)
Definition Qc_gt (p q : Qc) : bool := bool_decide (q < p)%Qc.

(** Rationals and a value that is not a number, compared and subtracted as
    float64 values are: a comparison with what is not a number is false, a
    difference with it is not a number. *)
Module Unordered.

Definition score : Type := option Qc.

Definition not_a_number : score := None.

Definition gt (a b : score) : bool :=
  match a, b with
  | Some p, Some q => Qc_gt p q
  | _, _ => false
  end.

Definition sub (a b : score) : score :=
  match a, b with
  | Some p, Some q => Some (p - q)%Qc
  | _, _ => None
  end.

Definition zero : score := Some 0%Qc.

End Unordered.

(** * Properties *)

(** ** Running the script: the laws of the two layers *)

Lemma bind_Ok {A B} (a : A) (k : A → result B) : (Ok a ≫= k) = k a.
Proof. reflexivity. Qed.

Lemma bind_Raise {A B} (e : exn) (k : A → result B) : (Raise e ≫= k) = Raise e.
Proof. reflexivity. Qed.

Lemma bind_Ok_inv {A B} (m : result A) (k : A → result B) (b : B) :
  (m ≫= k) = Ok b → ∃ a, m = Ok a ∧ k a = Ok b.
Proof. destruct m as [e|a]; [done|]. intros H. by exists a. Qed.

Lemma pbind_ret {A B} (a : A) (k : A → prog B) : (mret a ≫= k) = k a.
Proof. unfold mbind, prog_bind, pbind. simpl. by destruct (k a). Qed.

Lemma pbind_lift_Ok {A B} (a : A) (k : A → prog B) : (lift (Ok a) ≫= k) = k a.
Proof. apply pbind_ret. Qed.

Lemma pbind_lift_Raise {A B} (e : exn) (k : A → prog B) :
  (lift (Raise e) ≫= k) = throw e.
Proof. reflexivity. Qed.

Lemma pbind_stop {A B} o (s : stop) (k : A → prog B) :
  (Prog o (inl s) ≫= k) = Prog o (inl s).
Proof. reflexivity. Qed.

Lemma pbind_value {A B} o (a : A) (k : A → prog B) :
  (Prog o (inr a) ≫= k) = Prog (o ++ output (k a)) (outcome (k a)).
Proof. reflexivity. Qed.

(** ** The reporter: who wins, and by how much *)

Lemma Qc_sub_nonneg (a b : Qc) : (b ≤ a)%Qc → (0 ≤ a - b)%Qc.
Proof. intros H. by apply Qcle_minus_iff in H. Qed.

Lemma Qclt_irrefl (a : Qc) : ¬ (a < a)%Qc.
Proof. apply Qcle_not_lt, Qcle_refl. Qed.

Lemma Qclt_asym (a b : Qc) : (a < b)%Qc → ¬ (b < a)%Qc.
Proof. intros H. by apply Qcle_not_lt, Qclt_le_weak. Qed.

(** C1. Whatever the two predicted scores are: when the Patriots' score is
    the larger one they win by [pat_pred - sea_pred], which is not negative;
    when the Seahawks' is the larger one they win by [sea_pred - pat_pred],
    not negative either; equal scores give a tie with margin 0. *)
Theorem winner_by_comparison (pat_pred sea_pred : Qc) :
  ((sea_pred < pat_pred)%Qc →
     winner pat_pred sea_pred = "New England Patriots" ∧
     margin pat_pred sea_pred = (pat_pred - sea_pred)%Qc ∧
     (0 ≤ margin pat_pred sea_pred)%Qc) ∧
  ((pat_pred < sea_pred)%Qc →
     winner pat_pred sea_pred = "Seattle Seahawks" ∧
     margin pat_pred sea_pred = (sea_pred - pat_pred)%Qc ∧
     (0 ≤ margin pat_pred sea_pred)%Qc) ∧
  (pat_pred = sea_pred →
     winner pat_pred sea_pred = "Tie" ∧ margin pat_pred sea_pred = 0%Qc).
Proof.
  unfold winner, margin, winner_margin. repeat split.
  - by rewrite decide_True.
  - by rewrite decide_True.
  - rewrite decide_True by done. simpl. by apply Qc_sub_nonneg, Qclt_le_weak.
  - rewrite decide_False by by apply Qclt_asym. by rewrite decide_True.
  - rewrite decide_False by by apply Qclt_asym. by rewrite decide_True.
  - rewrite decide_False by by apply Qclt_asym. rewrite decide_True by done.
    simpl. by apply Qc_sub_nonneg, Qclt_le_weak.
  - subst. by rewrite !decide_False by apply Qclt_irrefl.
  - subst. by rewrite !decide_False by apply Qclt_irrefl.
Qed.

Lemma winner_by_comparison_witness :
  (winner (Q2Qc 24) (Q2Qc 17) = "New England Patriots" ∧
   margin (Q2Qc 24) (Q2Qc 17) = (Q2Qc 24 - Q2Qc 17)%Qc ∧
   (0 ≤ margin (Q2Qc 24) (Q2Qc 17))%Qc) ∧
  (winner (Q2Qc 17) (Q2Qc 24) = "Seattle Seahawks" ∧
   margin (Q2Qc 17) (Q2Qc 24) = (Q2Qc 24 - Q2Qc 17)%Qc ∧
   (0 ≤ margin (Q2Qc 17) (Q2Qc 24))%Qc) ∧
  (winner (Q2Qc 20) (Q2Qc 20) = "Tie" ∧ margin (Q2Qc 20) (Q2Qc 20) = 0%Qc).
Proof.
  split; [|split].
  - apply (winner_by_comparison (Q2Qc 24) (Q2Qc 17)). reflexivity.
  - apply (winner_by_comparison (Q2Qc 17) (Q2Qc 24)). reflexivity.
  - apply (winner_by_comparison (Q2Qc 20) (Q2Qc 20)). reflexivity.
Defined.

(** ** The weighted score of a prediction and its fallback *)

Lemma to_numeric_not_str parse_num (c : cell) : is_str (to_numeric parse_num c) = false.
Proof. destruct c as [q|s|]; simpl; [done| |done]. by destruct (parse_num s). Qed.

Lemma to_numeric_idemp parse_num (c : cell) :
  to_numeric parse_num (to_numeric parse_num c) = to_numeric parse_num c.
Proof. destruct c as [q|s|]; simpl; [done| |done]. by destruct (parse_num s). Qed.

(** C2. For a summary row that has a weighted score: [get_weighted_score]
    returns the coerced score when the coercion gives a number, and otherwise
    what the teams row holds under the average of points scored, whatever
    that is (it is neither a constant nor a value computed from the training
    table, which the function does not see).  The fallback is taken exactly
    when the coercion gives the missing marker, and the result is not
    missing whenever the fallback value is not. *)
Theorem get_weighted_score_fallback parse_num (team_off team_def_data : Series)
    (raw : cell) :
  series_get team_off WPOS = Ok raw →
  (isna (to_numeric parse_num raw) = false →
     get_weighted_score parse_num team_off team_def_data
       = Ok (to_numeric parse_num raw)) ∧
  (isna (to_numeric parse_num raw) = true →
     get_weighted_score parse_num team_off team_def_data
       = series_get team_def_data AVG_SCORED) ∧
  (isna (to_numeric parse_num raw) = true ↔
     ∀ d v, series_get d AVG_SCORED = Ok v →
            get_weighted_score parse_num team_off d = Ok v) ∧
  (∀ fallback,
     series_get team_def_data AVG_SCORED = Ok fallback →
     isna fallback = false →
     ∃ score, get_weighted_score parse_num team_off team_def_data = Ok score ∧
              isna score = false).
Proof.
  intros Hraw.
  assert (∀ d, get_weighted_score parse_num team_off d
               = if isna (to_numeric parse_num raw) then series_get d AVG_SCORED
                 else Ok (to_numeric parse_num raw)) as Hgws.
  { intros d. unfold get_weighted_score. by rewrite Hraw, bind_Ok. }
  destruct (isna (to_numeric parse_num raw)) eqn:Hna.
  - split; [done|]. split; [intros _; apply Hgws|]. split.
    + split; [|done]. intros _ d v Hv. by rewrite Hgws.
    + intros fallback Hfb Hpresent. exists fallback. by rewrite Hgws.
  - split; [intros _; apply Hgws|]. split; [done|]. split.
    + split; [done|]. intros H.
      specialize (H (mkSeries [AVG_SCORED] [NaN]) NaN eq_refl).
      rewrite Hgws in H. injection H as H. by rewrite H in Hna.
    + intros fallback _ _. exists (to_numeric parse_num raw). by rewrite Hgws.
Qed.

Lemma get_weighted_score_fallback_witness :
  get_weighted_score Sample.parse_num Sample.sea_off Sample.sea_def = Ok (Sample.num 25) ∧
  get_weighted_score Sample.parse_num Sample.pat_off Sample.pat_def = Ok (Sample.num 27).
Proof.
  split.
  - destruct (get_weighted_score_fallback Sample.parse_num Sample.sea_off
                Sample.sea_def (Str "--") eq_refl)
      as (_ & Hfallback & _).
    exact (Hfallback eq_refl).
  - destruct (get_weighted_score_fallback Sample.parse_num Sample.pat_off
                Sample.pat_def (Str "27") eq_refl)
      as (Hscore & _).
    exact (Hscore eq_refl).
Defined.

(** ** Labels and positions *)

Lemma position_None name labels : position name labels = None ↔ name ∉ labels.
Proof.
  induction labels as [|l labels IH]; simpl.
  - split; [intros _; apply not_elem_of_nil | done].
  - case_decide as Hl.
    + subst. split; [done | intros Hnot; destruct Hnot; left].
    + rewrite fmap_None, IH, not_elem_of_cons.
      split; [intros ?; split; [congruence | done] | by intros [_ ?]].
Qed.

Lemma position_Some name labels i :
  position name labels = Some i → labels !! i = Some name.
Proof.
  revert i. induction labels as [|l labels IH]; intros i; simpl; [done|].
  case_decide as Hl.
  - intros [= <-]. by subst.
  - intros (j & Hj & ->)%fmap_Some. simpl. by apply IH.
Qed.

Lemma position_is_Some name labels : name ∈ labels → is_Some (position name labels).
Proof.
  intros Hin. destruct (position name labels) eqn:E; [by eexists|].
  by apply position_None in E.
Qed.

Lemma positions_Ok names labels :
  Forall (λ n, n ∈ labels) names →
  positions names labels = Ok (omap (λ n, position n labels) names) ∧
  Forall2 (λ n i, position n labels = Some i) names
          (omap (λ n, position n labels) names).
Proof.
  intros Hall. unfold positions.
  assert (filter (λ n, position n labels = None) names = []) as ->.
  { induction Hall as [|n names Hn _ IH]; [done|].
    rewrite filter_cons. rewrite decide_False; [done|].
    intros E. by apply position_None in E. }
  split; [done|].
  induction Hall as [|n names Hn _ IH]; simpl; [constructor|].
  destruct (position_is_Some _ _ Hn) as [i Hi]. rewrite Hi. by constructor.
Qed.

Lemma positions_inv names labels ps :
  positions names labels = Ok ps →
  Forall (λ n, n ∈ labels) names ∧ ps = omap (λ n, position n labels) names.
Proof.
  unfold positions.
  destruct (filter _ names) as [|m ms] eqn:E; [|done].
  intros [= <-]. split; [|done].
  apply Forall_forall. intros n Hn.
  destruct (decide (n ∈ labels)) as [|Hnot]; [done|].
  apply position_None in Hnot.
  assert (n ∈ filter (λ n, position n labels = None) names) as Hin
    by by apply list_elem_of_filter.
  rewrite E in Hin. by apply elem_of_nil in Hin.
Qed.

Lemma positions_Raise names labels e :
  positions names labels = Raise e →
  e = KeyError (filter (λ n, n ∉ labels) names) ∧ ∃ n, n ∈ names ∧ n ∉ labels.
Proof.
  unfold positions.
  assert (filter (λ n, position n labels = None) names
          = filter (λ n, n ∉ labels) names) as ->.
  { apply list_filter_iff. intros n. apply position_None. }
  destruct (filter _ names) as [|m ms] eqn:E; [done|].
  intros [= <-]. split; [done|].
  assert (m ∈ filter (λ n, n ∉ labels) names) as Hm by (rewrite E; left).
  apply list_elem_of_filter in Hm. exists m. tauto.
Qed.

(** ** The cleaning step *)

Lemma zip_with_fmap_diag {A B C} (f : A → B → C) (g : A → B) (l : list A) :
  zip_with f l (g <$> l) = (λ x, f x (g x)) <$> l.
Proof. induction l as [|x l IH]; csimpl; [done|]. by rewrite IH. Qed.

Lemma at_pos_insert (i : nat) v (r : list cell) :
  at_pos i (<[i:=v]> r) = if decide (i < length r) then v else NaN.
Proof.
  unfold at_pos. case_decide as Hi.
  - by rewrite list_lookup_insert_eq.
  - rewrite list_insert_ge by lia. by rewrite lookup_ge_None_2 by lia.
Qed.

Lemma at_pos_insert_ne i j v (r : list cell) :
  i ≠ j → at_pos j (<[i:=v]> r) = at_pos j r.
Proof. intros Hij. unfold at_pos. by rewrite list_lookup_insert_ne. Qed.

Lemma at_pos_ge (i : nat) (r : list cell) : (length r ≤ i)%nat → at_pos i r = NaN.
Proof. intros Hi. unfold at_pos. by rewrite lookup_ge_None_2. Qed.

(** The coerced cell is the coercion of the cell that was there; the other
    cells are untouched. *)
Lemma at_pos_coerce_row parse_num i j r :
  at_pos j (coerce_row parse_num i r)
  = if decide (j = i) then to_numeric parse_num (at_pos i r) else at_pos j r.
Proof.
  unfold coerce_row. case_decide as Hj.
  - subst. rewrite at_pos_insert. case_decide as Hi; [done|].
    by rewrite at_pos_ge by lia.
  - by rewrite at_pos_insert_ne.
Qed.

Lemma coerce_row_idemp parse_num i r :
  coerce_row parse_num i (coerce_row parse_num i r) = coerce_row parse_num i r.
Proof.
  unfold coerce_row at 1. rewrite at_pos_coerce_row, decide_True by done.
  rewrite to_numeric_idemp. unfold coerce_row. apply list_insert_insert_eq.
Qed.

Lemma complete_has_features cols r :
  Forall (λ n, n ∈ cols) features →
  complete (omap (λ n, position n cols) features) r = true ↔ has_features cols r.
Proof.
  intros Hall. destruct (positions_Ok _ _ Hall) as [_ Hps].
  unfold complete, has_features.
  induction Hps as [|n i names ps Hn _ IH]; simpl.
  - split; [constructor | done].
  - rewrite andb_true_iff, Forall_cons, IH, negb_true_iff.
    + unfold cell_of. by rewrite Hn.
    + by inversion Hall.
Qed.

(** The rows are filtered on the very labels the model is trained on. *)
Lemma clean_features parse_num games :
  clean parse_num games
  = col ← getitem games WPOS;
    dropna features (setitem games WPOS (to_numeric parse_num <$> col)).
Proof. reflexivity. Qed.

(** What the step computes on a table that has the four columns. *)
Lemma clean_Ok parse_num games i :
  position WPOS (columns games) = Some i →
  Forall (λ n, n ∈ columns games) features →
  clean parse_num games
  = Ok (mkFrame (columns games)
          (filter (has_features (columns games))
                  (coerce_row parse_num i <$> rows games))).
Proof.
  intros Hi Hall. rewrite clean_features. unfold getitem. rewrite Hi.
  unfold mbind, result_bind, rbind, setitem. rewrite Hi. unfold dropna. simpl columns.
  destruct (positions_Ok _ _ Hall) as [-> _]. simpl. do 2 f_equal.
  rewrite <-list_fmap_compose, zip_with_fmap_diag.
  apply list_filter_iff. intros r. rewrite Is_true_true.
  by apply complete_has_features.
Qed.

(** The step succeeds exactly on the tables that have the four columns. *)
Lemma clean_inv parse_num games cleaned :
  clean parse_num games = Ok cleaned →
  Forall (λ n, n ∈ columns games) features ∧
  ∃ i, position WPOS (columns games) = Some i.
Proof.
  rewrite clean_features. unfold getitem.
  destruct (position WPOS (columns games)) as [i|] eqn:Hi; [|done].
  unfold mbind, result_bind, rbind, setitem, dropna. rewrite Hi. simpl columns.
  destruct (positions _ _) as [e|ps] eqn:Hps; [done|].
  intros _. apply positions_inv in Hps as [Hall _]. eauto.
Qed.

(** The table that leaves the step has the four columns, so the test that
    guards the fit always passes in a run of the script. *)
Lemma clean_columns parse_num games cleaned :
  clean parse_num games = Ok cleaned →
  columns cleaned = columns games ∧
  Forall (λ n, n ∈ columns cleaned) features.
Proof.
  intros Hclean. destruct (clean_inv _ _ _ Hclean) as [Hall [i Hi]].
  rewrite (clean_Ok _ _ i Hi Hall) in Hclean. by injection Hclean as <-.
Qed.

(** C4, as amended. On a joined table that has the four feature columns the
    cleaning step raises nothing: it replaces every cell of the weighted
    score column by its coercion (a string that does not parse becomes the
    missing marker) and keeps, in order, exactly the rows in which none of
    the four features is missing; the columns stay and the table can only
    get shorter. *)
Theorem cleaning_coerces_and_filters parse_num games :
  Forall (λ n, n ∈ columns games) features →
  ∃ i cleaned,
    position WPOS (columns games) = Some i ∧
    clean parse_num games = Ok cleaned ∧
    columns cleaned = columns games ∧
    rows cleaned = filter (has_features (columns games))
                          (coerce_row parse_num i <$> rows games) ∧
    (∀ r j, at_pos j (coerce_row parse_num i r)
            = if decide (j = i) then to_numeric parse_num (at_pos i r)
              else at_pos j r) ∧
    (∀ s, parse_num s = None → to_numeric parse_num (Str s) = NaN) ∧
    (length (rows cleaned) ≤ length (rows games))%nat.
Proof.
  intros Hall.
  assert (WPOS ∈ columns games) as Hw.
  { apply (proj1 (Forall_forall _ _) Hall). left. }
  destruct (position_is_Some _ _ Hw) as [i Hi].
  exists i. eexists. split; [done|]. split; [by apply clean_Ok|].
  simpl. repeat split.
  - intros r j. apply at_pos_coerce_row.
  - intros s Hs. simpl. by rewrite Hs.
  - etrans; [apply length_filter|]. by rewrite length_fmap.
Qed.

Lemma sample_features : Forall (λ n, n ∈ columns Sample.joined) features.
Proof. apply (bool_decide_unpack _). vm_compute. done. Qed.

Lemma cleaning_coerces_and_filters_witness :
  join_tables Sample.games Sample.summary Sample.teams = Ok Sample.joined ∧
  Forall (λ n, n ∈ columns Sample.joined) features ∧
  clean Sample.parse_num Sample.joined = Ok Sample.cleaned ∧
  rows Sample.cleaned
  = filter (has_features (columns Sample.joined))
           (coerce_row Sample.parse_num 5 <$> rows Sample.joined) ∧
  length (rows Sample.joined) = 4 ∧ length (rows Sample.cleaned) = 2.
Proof.
  split; [vm_compute; reflexivity|]. split; [apply sample_features|].
  destruct (cleaning_coerces_and_filters Sample.parse_num Sample.joined
              sample_features)
    as (i & cleaned & Hi & Hclean & _ & Hrows & _).
  assert (clean Sample.parse_num Sample.joined = Ok Sample.cleaned) as Hsample
    by (vm_compute; reflexivity).
  rewrite Hsample in Hclean. injection Hclean as <-.
  injection Hi as <-. done.
Defined.

(** C4, as stated, fails: a table without the weighted score column makes the
    step raise, and the uncaught [KeyError] ends the run.  Here the column
    is absent because Games.csv and Summary.csv both have it, so that the
    join names the two copies apart. *)
Lemma cleaning_stops_the_program :
  join_tables Sample.games_scored Sample.summary Sample.teams
  = Ok Sample.joined_scored ∧
  (WPOS ∉ columns Sample.joined_scored) ∧
  clean Sample.parse_num Sample.joined_scored = Raise (KeyError [WPOS]) ∧
  main Sample.parse_num true Sample.model Sample.fit Sample.predict
       Sample.games_scored Sample.summary Sample.teams
  = Prog [] (inl (Uncaught (KeyError [WPOS]))).
Proof.
  split; [vm_compute; reflexivity|].
  split; [apply (bool_decide_unpack _); vm_compute; done|].
  split; vm_compute; reflexivity.
Qed.

Lemma filter_idemp {A} (P : A → Prop) `{!∀ x, Decision (P x)} (l : list A) :
  filter P (filter P l) = filter P l.
Proof.
  induction l as [|x l IH]; [done|].
  rewrite filter_cons. case_decide as HP; [|done].
  by rewrite filter_cons, decide_True, IH.
Qed.

Lemma fmap_filter_fixed {A} (f : A → A) (P : A → Prop) `{!∀ x, Decision (P x)}
    (l : list A) :
  (∀ x, f (f x) = f x) → f <$> filter P (f <$> l) = filter P (f <$> l).
Proof.
  intros Hf. induction l as [|x l IH]; [done|].
  csimpl. rewrite filter_cons. case_decide; [|done].
  csimpl. by rewrite Hf, IH.
Qed.

(** C5. The cleaning step is idempotent: run on its own output it returns
    that output unchanged, the same rows and so the same number of rows. *)
Theorem cleaning_idempotent parse_num games cleaned :
  clean parse_num games = Ok cleaned →
  clean parse_num cleaned = Ok cleaned ∧
  ∀ again, clean parse_num cleaned = Ok again →
           rows again = rows cleaned ∧
           length (rows again) = length (rows cleaned).
Proof.
  intros Hclean.
  assert (clean parse_num cleaned = Ok cleaned) as Hagain.
  { destruct (clean_inv _ _ _ Hclean) as [Hall [i Hi]].
    rewrite (clean_Ok _ _ i Hi Hall) in Hclean. injection Hclean as <-.
    rewrite (clean_Ok _ (mkFrame (columns games) _) i Hi Hall).
    simpl. do 2 f_equal.
    rewrite fmap_filter_fixed by apply coerce_row_idemp.
    apply filter_idemp. }
  split; [done|]. intros again. rewrite Hagain. by intros [= <-].
Qed.

Lemma cleaning_idempotent_witness :
  clean Sample.parse_num Sample.joined = Ok Sample.cleaned ∧
  clean Sample.parse_num Sample.cleaned = Ok Sample.cleaned ∧
  length (rows Sample.joined) = 4 ∧ length (rows Sample.cleaned) = 2.
Proof.
  assert (clean Sample.parse_num Sample.joined = Ok Sample.cleaned) as Hsample
    by (vm_compute; reflexivity).
  split; [exact Hsample|].
  split; [exact (proj1 (cleaning_idempotent _ _ _ Hsample))|]. done.
Defined.

(** ** The target is not a filter *)

Lemma cell_of_coerce_row parse_num cols i r name :
  position WPOS cols = Some i → name ≠ WPOS →
  cell_of cols (coerce_row parse_num i r) name = cell_of cols r name.
Proof.
  intros Hi Hname. unfold cell_of.
  destruct (position name cols) as [j|] eqn:Hj; [|done].
  rewrite at_pos_coerce_row. rewrite decide_False; [done|].
  intros ->. apply position_Some in Hi, Hj. congruence.
Qed.

(** C10. Cleaning does not look at the target.  A row of the joined table
    whose four features are present after the coercion is in the cleaned
    table whatever its [points_scored] cell is, and that cell is carried over
    as it was; so the cleaned table, and with it the target column handed to
    the fit, may hold missing targets, as it does on the sample tables. *)
Theorem target_is_not_filtered :
  (∀ parse_num games cleaned i r,
     clean parse_num games = Ok cleaned →
     position WPOS (columns games) = Some i →
     r ∈ rows games →
     has_features (columns games) (coerce_row parse_num i r) →
     coerce_row parse_num i r ∈ rows cleaned ∧
     cell_of (columns cleaned) (coerce_row parse_num i r) "points_scored"
     = cell_of (columns games) r "points_scored") ∧
  (∃ joined cleaned r y,
     join_tables Sample.games Sample.summary Sample.teams = Ok joined ∧
     clean Sample.parse_num joined = Ok cleaned ∧
     r ∈ rows cleaned ∧
     has_features (columns cleaned) r ∧
     cell_of (columns cleaned) r "points_scored" = NaN ∧
     getitem cleaned "points_scored" = Ok y ∧
     NaN ∈ y).
Proof.
  split.
  - intros parse_num games cleaned i r Hclean Hi Hr Hfeat.
    destruct (clean_inv _ _ _ Hclean) as [Hall _].
    rewrite (clean_Ok _ _ i Hi Hall) in Hclean. injection Hclean as <-.
    simpl. split.
    + apply list_elem_of_filter. split; [done|]. by apply list_elem_of_fmap_2.
    + by apply cell_of_coerce_row.
  - exists Sample.joined, Sample.cleaned. eexists _, _.
    split; [vm_compute; reflexivity|]. split; [vm_compute; reflexivity|].
    split; [right; left|].
    split; [by apply (bool_decide_unpack _); vm_compute|].
    split; [vm_compute; reflexivity|]. split; [vm_compute; reflexivity|].
    right; left.
Qed.

Lemma target_is_not_filtered_witness :
  clean Sample.parse_num Sample.joined = Ok Sample.cleaned ∧
  ∃ r, rows Sample.joined !! 2 = Some r ∧
       cell_of (columns Sample.joined) r "points_scored" = NaN ∧
       coerce_row Sample.parse_num 5 r ∈ rows Sample.cleaned ∧
       cell_of (columns Sample.cleaned) (coerce_row Sample.parse_num 5 r)
         "points_scored" = NaN.
Proof.
  assert (clean Sample.parse_num Sample.joined = Ok Sample.cleaned) as Hsample
    by (vm_compute; reflexivity).
  split; [exact Hsample|].
  eexists. split; [reflexivity|]. split; [reflexivity|].
  refine (proj1 target_is_not_filtered _ _ _ 5 _ Hsample eq_refl _ _).
  - do 2 right. left.
  - apply (bool_decide_unpack _). vm_compute. done.
Defined.

(** ** The feature vectors of the two predictions *)

Lemma getitems_columns df names X : getitems df names = Ok X → columns X = names.
Proof.
  unfold getitems. intros (ps & _ & H)%bind_Ok_inv. by injection H as <-.
Qed.

Lemma feature_frame_inv parse_num teams team off opp_def df :
  feature_frame parse_num teams team off opp_def = Ok df →
  ∃ own w mo a t,
    team_row teams team = Ok own ∧
    get_weighted_score parse_num off own = Ok w ∧
    series_get off MOMENTUM = Ok mo ∧
    series_get opp_def AVG_ALLOWED = Ok a ∧
    series_get opp_def TIER_RANK = Ok t ∧
    df = mkFrame features [[w; mo; a; t]].
Proof.
  unfold feature_frame.
  intros (own & Hown & H)%bind_Ok_inv. apply bind_Ok_inv in H as (w & Hw & H).
  apply bind_Ok_inv in H as (mo & Hmo & H). apply bind_Ok_inv in H as (a & Ha & H).
  apply bind_Ok_inv in H as (t & Ht & H). injection H as <-.
  by exists own, w, mo, a, t.
Qed.

Lemma predict0_checked {model} predict (m : model) df :
  columns df = features → Forall (λ r, length r = 4) (rows df) →
  predict0 model (checked predict) m df = predict0 model predict m df.
Proof.
  intros Hc Hr. unfold predict0, checked. by rewrite bool_decide_eq_true_2.
Qed.

(** C3. Each of the two tables handed to [predict] has the four training
    columns in the training order, which is the column order of the table
    [X] the model is fitted on, and one row of four entries: the weighted
    score, the momentum, the opponent's average of points allowed and the
    opponent's tier.  Hence a [predict] that refuses any other table leaves
    the run as it is. *)
Theorem feature_vectors_in_training_order :
  (∀ parse_num teams team off opp_def df,
     feature_frame parse_num teams team off opp_def = Ok df →
     columns df = [WPOS; MOMENTUM; OPP_ALLOWED; OPP_TIER] ∧
     (∀ games X, getitems games features = Ok X → columns df = columns X) ∧
     ∃ own w mo a t,
       rows df = [[w; mo; a; t]] ∧
       team_row teams team = Ok own ∧
       get_weighted_score parse_num off own = Ok w ∧
       series_get off MOMENTUM = Ok mo ∧
       series_get opp_def AVG_ALLOWED = Ok a ∧
       series_get opp_def TIER_RANK = Ok t) ∧
  (∀ parse_num model predict (m : model) teams pat_off sea_def sea_off pat_def,
     predict_and_report parse_num model predict m teams pat_off sea_def sea_off pat_def
     = predict_and_report parse_num model (checked predict) m teams
         pat_off sea_def sea_off pat_def).
Proof.
  split.
  - intros parse_num teams team off opp_def df Hdf.
    apply feature_frame_inv in Hdf as (own & w & mo & a & t & ? & ? & ? & ? & ? & ->).
    split; [done|]. split.
    + intros games X HX. apply getitems_columns in HX. by rewrite HX.
    + by exists own, w, mo, a, t.
  - intros parse_num model predict m teams pat_off sea_def sea_off pat_def.
    unfold predict_and_report, pat_df, sea_df.
    destruct (feature_frame parse_num teams PATRIOTS pat_off sea_def)
      as [e|df1] eqn:Hdf1; [done|].
    rewrite !pbind_lift_Ok.
    apply feature_frame_inv in Hdf1 as (? & ? & ? & ? & ? & _ & _ & _ & _ & _ & ->).
    rewrite predict0_checked by (done || by repeat constructor).
    destruct (predict0 model predict m _) as [e|pat_pred]; [done|].
    rewrite !pbind_lift_Ok.
    destruct (feature_frame parse_num teams SEAHAWKS sea_off pat_def)
      as [e|df2] eqn:Hdf2; [done|].
    rewrite !pbind_lift_Ok.
    apply feature_frame_inv in Hdf2 as (? & ? & ? & ? & ? & _ & _ & _ & _ & _ & ->).
    by rewrite predict0_checked by (done || by repeat constructor).
Qed.

Lemma feature_vectors_in_training_order_witness :
  ∃ df,
    pat_df Sample.parse_num Sample.teams Sample.pat_off Sample.sea_def = Ok df ∧
    columns df = [WPOS; MOMENTUM; OPP_ALLOWED; OPP_TIER] ∧
    rows df = [[Sample.num 27; Sample.num 3; Sample.num 20; Sample.num 2]].
Proof.
  eexists. split; [vm_compute; reflexivity|]. split; [|reflexivity].
  refine (proj1 (proj1 feature_vectors_in_training_order Sample.parse_num
                   Sample.teams PATRIOTS Sample.pat_off Sample.sea_def _ _)).
  vm_compute. reflexivity.
Defined.

(** ** The two left joins *)

Lemma filter_unique_key {A} (f : A → cell) (k : cell) (l : list A) :
  NoDup (f <$> l) → (length (filter (λ x, f x = k) l) ≤ 1)%nat.
Proof.
  induction l as [|x l IH]; csimpl; [lia|].
  intros [Hx Hl]%NoDup_cons. rewrite filter_cons. case_decide as Hk.
  - destruct (filter (λ x, f x = k) l) as [|y ys] eqn:E; [simpl; lia|].
    exfalso. apply Hx.
    assert (y ∈ filter (λ x, f x = k) l) as Hy by (rewrite E; left).
    apply list_elem_of_filter in Hy as [Hfy Hy].
    rewrite Hk, <-Hfy. by apply list_elem_of_fmap_2.
  - by apply IH.
Qed.

Lemma join_row_unique i j keep width right_rows lrow :
  NoDup (at_pos j <$> right_rows) →
  join_row i j keep width right_rows lrow
  = [lrow ++ matched j keep width right_rows (at_pos i lrow)].
Proof.
  intros Hnd. unfold join_row, matched.
  pose proof (filter_unique_key (at_pos j) (at_pos i lrow) right_rows Hnd) as Hlen.
  destruct (filter _ right_rows) as [|r [|r' rs]]; [done|done|simpl in Hlen; lia].
Qed.

Lemma bind_singleton {A B} (f : A → B) (l : list A) : (l ≫= λ x, [f x]) = f <$> l.
Proof. induction l as [|x l IH]; csimpl; [done|]. by rewrite IH. Qed.

Lemma locate_inv name labels i : locate name labels = Ok i → position name labels = Some i.
Proof. unfold locate. destruct (position name labels); [|done]. by intros [= ->]. Qed.

(** A left join on a right table with pairwise distinct keys: the columns
    and, row by row, the rows. *)
Lemma merge_unique left right left_on right_on suffixes joined :
  merge left right left_on right_on suffixes = Ok joined →
  ∃ i j,
    position left_on (columns left) = Some i ∧
    position right_on (columns right) = Some j ∧
    let same := bool_decide (left_on = right_on) in
    let rcols := if same then delete j (columns right) else columns right in
    let keep := if same then delete j else id in
    let to_rename := filter (λ l, l ∈ rcols) (columns left) in
    columns joined
    = (add_suffix to_rename suffixes.1 <$> columns left)
      ++ (add_suffix to_rename suffixes.2 <$> rcols) ∧
    (NoDup (at_pos j <$> rows right) →
     rows joined
     = (λ l, l ++ matched j keep (length rcols) (rows right) (at_pos i l))
       <$> rows left).
Proof.
  unfold merge. intros (j & Hj%locate_inv & H)%bind_Ok_inv.
  apply bind_Ok_inv in H as (i & Hi%locate_inv & H).
  exists i, j. split; [done|]. split; [done|]. simpl.
  destruct (suffix_dups _ _ ++ suffix_dups _ _); [|done].
  injection H as <-. simpl. split; [done|].
  intros Hnd. rewrite length_fmap. rewrite <-bind_singleton.
  apply list_bind_ext; [|done]. intros l. by apply join_row_unique.
Qed.

Lemma position_fmap_label (f : string → string) name labels :
  (∀ l, f l = name ↔ l = name) →
  position name (f <$> labels) = position name labels.
Proof.
  intros Hf. induction labels as [|l labels IH]; csimpl; [done|].
  rewrite IH. destruct (decide (l = name)) as [Hl|Hl].
  - by rewrite decide_True by by apply Hf.
  - by rewrite decide_False by by rewrite Hf.
Qed.

Ltac rename_cases :=
  intros l; unfold rename_label; simpl;
  repeat (case_decide; simpl); split; intros; simplify_eq; done.

Lemma rename_summary_Team l :
  rename_label [("Tier 1 Avg Points", "tier1_avg"); ("Tier 2 Avg Points", "tier2_avg");
                ("Tier 3 Avg Points", "tier3_avg"); ("Tier 4 Avg Points", "tier4_avg")] l
  = "Team" ↔ l = "Team".
Proof. revert l. rename_cases. Qed.



Lemma teams_opp_inv teams opp :
  teams_opp teams = Ok opp →
  ∃ jT jA,
    position "Team" (columns teams) = Some jT ∧
    position AVG_ALLOWED (columns teams) = Some jA ∧
    opp = mkFrame ["Team"; OPP_ALLOWED] (pick [jT; jA] <$> rows teams).
Proof.
  unfold teams_opp, getitems.
  intros (sel & (ps & Hps & Hsel)%bind_Ok_inv & Hopp)%bind_Ok_inv.
  apply positions_inv in Hps as [Hall ->].
  apply Forall_cons in Hall as [[jT HjT]%position_is_Some Hall].
  apply Forall_cons in Hall as [[jA HjA]%position_is_Some _].
  exists jT, jA. split; [done|]. split; [done|].
  injection Hsel as <-. injection Hopp as <-.
  simpl. by rewrite HjT, HjA.
Qed.


Lemma drop_columns_inv names df dropped :
  drop_columns names df = Ok dropped →
  let mask := (λ l, bool_decide (l ∉ names)) <$> columns df in
  columns dropped = keep_mask mask (columns df) ∧
  rows dropped = keep_mask mask <$> rows df.
Proof.
  unfold drop_columns. destruct (filter _ names); [|done]. by intros [= <-].
Qed.



Lemma append_empty (s : string) : s +:+ "" = s.
Proof.
  induction s as [|a s IH]; [done|].
  change (String a (s +:+ "") = String a s). by rewrite IH.
Qed.

Lemma add_suffix_empty to_rename l : add_suffix to_rename "" l = l.
Proof. unfold add_suffix. case_decide; [apply append_empty | done]. Qed.


Lemma join_inv games summary opp joined :
  join games summary opp = Ok joined →
  ∃ g1 g2,
    merge games summary "Team" "Team" ("_x", "_y") = Ok g1 ∧
    merge g1 opp "Opponent" "Team" ("", "_opp") = Ok g2 ∧
    drop_columns ["Team_opp"] g2 = Ok joined.
Proof.
  unfold join. intros (g1 & Hg1 & H)%bind_Ok_inv.
  apply bind_Ok_inv in H as (g2 & Hg2 & H). by exists g1, g2.
Qed.



(** Whether a join returns is decided by the labels of the two tables, and
    so are the labels of the result; the rows play no part. *)
Lemma merge_by_labels left right left' right' left_on right_on suffixes joined' :
  columns left = columns left' → columns right = columns right' →
  merge left' right' left_on right_on suffixes = Ok joined' →
  ∃ joined, merge left right left_on right_on suffixes = Ok joined ∧
            columns joined = columns joined'.
Proof.
  intros Hl Hr. unfold merge. rewrite Hl, Hr.
  destruct (locate right_on (columns right')) as [e|j]; [done|].
  destruct (locate left_on (columns left')) as [e|i]; [done|].
  rewrite !bind_Ok. simpl.
  destruct (suffix_dups _ _ ++ suffix_dups _ _); [|done].
  intros [= <-]. by eexists.
Qed.

Lemma teams_opp_by_labels teams teams' opp' :
  columns teams = columns teams' →
  teams_opp teams' = Ok opp' →
  ∃ opp, teams_opp teams = Ok opp ∧ columns opp = columns opp'.
Proof.
  intros Hc. unfold teams_opp, getitems. rewrite Hc.
  destruct (positions _ (columns teams')) as [e|ps]; [done|].
  rewrite !bind_Ok. intros [= <-]. by eexists.
Qed.

Lemma drop_columns_by_labels names df df' dropped' :
  columns df = columns df' →
  drop_columns names df' = Ok dropped' →
  ∃ dropped, drop_columns names df = Ok dropped ∧
             columns dropped = columns dropped'.
Proof.
  intros Hc. unfold drop_columns. rewrite Hc.
  destruct (filter _ names); [|done]. intros [= <-]. by eexists.
Qed.

Lemma join_tables_by_labels games summary teams games' summary' teams' joined' :
  columns games = columns games' →
  columns summary = columns summary' →
  columns teams = columns teams' →
  join_tables games' summary' teams' = Ok joined' →
  ∃ joined, join_tables games summary teams = Ok joined ∧
            columns joined = columns joined'.
Proof.
  intros Hg Hs Ht. unfold join_tables, join.
  intros (opp' & Hopp' & H)%bind_Ok_inv.
  apply bind_Ok_inv in H as (g1' & Hg1' & H).
  apply bind_Ok_inv in H as (g2' & Hg2' & Hdrop').
  destruct (teams_opp_by_labels _ _ _ Ht Hopp') as (opp & -> & Hopp).
  rewrite bind_Ok.
  assert (columns (rename_games games) = columns (rename_games games')) as Hrg
    by (unfold rename_games, rename; simpl; by rewrite Hg).
  assert (columns (rename_summary summary) = columns (rename_summary summary'))
    as Hrs by (unfold rename_summary, rename; simpl; by rewrite Hs).
  destruct (merge_by_labels _ _ _ _ _ _ _ _ Hrg Hrs Hg1') as (g1 & -> & Hg1).
  rewrite bind_Ok.
  destruct (merge_by_labels g1 opp _ _ _ _ _ _ Hg1 Hopp Hg2') as (g2 & -> & Hg2).
  rewrite bind_Ok. by eapply drop_columns_by_labels.
Qed.

(** So the joins return on three tables exactly when they return on their
    header lines. *)
Lemma join_tables_returns_by_header games summary teams :
  (∃ joined, join_tables games summary teams = Ok joined) ↔
  (∃ labels, join_tables (header games) (header summary) (header teams)
             = Ok labels).
Proof.
  split; intros [joined Hjoin].
  - destruct (join_tables_by_labels (header games) (header summary) (header teams)
                games summary teams joined eq_refl eq_refl eq_refl Hjoin)
      as (labels & Hlabels & _).
    by exists labels.
  - destruct (join_tables_by_labels games summary teams
                (header games) (header summary) (header teams) joined
                eq_refl eq_refl eq_refl Hjoin)
      as (joined' & Hjoin' & _).
    by exists joined'.
Qed.




(** Without the uniqueness the join does add rows: with the Patriots twice
    in the summary table, each of their three games is joined twice. *)
Example duplicate_team_multiplies_rows :
  ¬ NoDup (team_column Sample.summary_twice) ∧
  ∃ joined,
    join_tables Sample.games Sample.summary_twice Sample.teams = Ok joined ∧
    length (rows Sample.games) = 4 ∧ length (rows joined) = 7.
Proof.
  split; [apply (bool_decide_unpack _); vm_compute; done|].
  eexists. split; [vm_compute; reflexivity|]. done.
Qed.

(** ** Training *)

Lemma getitems_missing df names :
  (∃ n, n ∈ names ∧ n ∉ columns df) →
  getitems df names = Raise (KeyError (filter (λ n, n ∉ columns df) names)).
Proof.
  intros (n & Hn & Hnot). unfold getitems.
  destruct (positions names (columns df)) as [e|ps] eqn:Hps.
  - apply positions_Raise in Hps as [-> _]. done.
  - apply positions_inv in Hps as [Hall _].
    destruct Hnot. by apply (proj1 (Forall_forall _ _) Hall).
Qed.

Lemma getitems_present df names :
  Forall (λ n, n ∈ columns df) names →
  ∃ X, getitems df names = Ok X ∧ columns X = names.
Proof.
  intros Hall. unfold getitems. destruct (positions_Ok _ _ Hall) as [-> _].
  by eexists.
Qed.

Lemma nothing_missing (cols names : list string) :
  Forall (λ n, n ∈ cols) names → filter (λ n, n ∉ cols) names = [].
Proof.
  induction 1 as [|n names Hn _ IH]; [done|].
  by rewrite filter_cons, decide_False by by intros ?.
Qed.

Ltac not_printed :=
  let Hin := fresh "Hin" in
  simpl; intros Hin;
  repeat (apply elem_of_cons in Hin as [Hin|Hin]; [discriminate Hin|]);
  by apply elem_of_nil in Hin.

(** The explicit test of lines 93-97 never fires: the indexing of line 89
    raises first whenever a feature is no column. *)
Lemma explicit_check_is_dead {model} fit games l :
  ErrMissingFeatures l ∉ output (train model fit games).
Proof.
  unfold train, train_body.
  destruct (decide (Forall (λ n, n ∈ columns games) features)) as [Hall|Hnot].
  - destruct (getitems_present _ _ Hall) as (X & -> & _). rewrite pbind_lift_Ok.
    rewrite (nothing_missing _ _ Hall).
    destruct (getitem games "points_scored") as [e|y].
    + destruct e; not_printed.
    + rewrite pbind_lift_Ok. destruct (fit X y) as [e|m].
      * destruct e; not_printed.
      * not_printed.
  - apply not_Forall_Exists in Hnot; [|apply _].
    apply Exists_exists in Hnot. rewrite (getitems_missing _ _ Hnot).
    not_printed.
Qed.

(** The training block on a table without one of the features, were one to
    reach it: the indexing of line 89 raises and the handler of lines
    103-106 prints the absent labels and the columns. *)
Lemma train_without_a_feature {model}
    (fit : DataFrame → list cell → result model) games :
  (∃ f, f ∈ features ∧ f ∉ columns games) →
  train model fit games
  = Prog [ErrMissingColumn (KeyError (filter (λ f, f ∉ columns games) features));
          AvailableColumns (columns games)]
         (inl (SysExit 1)).
Proof.
  intros Hmissing. unfold train, train_body.
  by rewrite (getitems_missing _ _ Hmissing).
Qed.

(** The cleaning step on a table without one of the features: line 56
    raises when the weighted score is no column, line 62 otherwise, with
    the absent features. *)
Lemma clean_without_a_feature parse_num joined :
  (∃ f, f ∈ features ∧ f ∉ columns joined) →
  clean parse_num joined
  = Raise (KeyError (if decide (WPOS ∈ columns joined)
                     then filter (λ f, f ∉ columns joined) features
                     else [WPOS])).
Proof.
  intros (f & Hf & Hnot). rewrite clean_features. unfold getitem.
  destruct (position WPOS (columns joined)) as [i|] eqn:Hi.
  - rewrite decide_True
      by (apply position_Some in Hi; by eapply list_elem_of_lookup_2).
    unfold mbind, result_bind, rbind, setitem, dropna. rewrite Hi. simpl columns.
    destruct (positions features (columns joined)) as [e|ps] eqn:Hps.
    + by apply positions_Raise in Hps as [-> _].
    + apply positions_inv in Hps as [Hall _].
      destruct Hnot. by apply (proj1 (Forall_forall _ _) Hall).
  - by rewrite decide_False by by apply position_None.
Qed.

(** C7. The claimed report of the missing features is never produced.  A
    run whose joined table lacks one of the four feature columns does not
    get as far as the training block: the cleaning step, which runs before
    it and outside every handler, raises [KeyError] (at line 56 when the
    weighted score is the absent column, at line 62 otherwise), and the run
    ends there, uncaught, having printed nothing: neither the absent
    features nor the available columns.  The status is 1 and nothing is
    fitted, whatever the fit would do.  The tables that do reach the
    training block all have the four columns, and on no table at all does
    the block print the message of its test of lines 93-97. *)
Theorem missing_feature_is_never_reported parse_num sklearn_installed {model}
    (fit : DataFrame → list cell → result model)
    (predict : model → DataFrame → result (list Qc)) games summary teams joined :
  join_tables games summary teams = Ok joined →
  (∃ f, f ∈ features ∧ f ∉ columns joined) →
  let run := main parse_num sklearn_installed model fit predict games summary teams in
  let missing := filter (λ f, f ∉ columns joined) features in
  let raised := KeyError (if decide (WPOS ∈ columns joined) then missing else [WPOS]) in
  clean parse_num joined = Raise raised ∧
  run = Prog [] (inl (Uncaught raised)) ∧
  (ErrMissingFeatures missing ∉ output run) ∧
  (ErrMissingColumn (KeyError missing) ∉ output run) ∧
  (AvailableColumns (columns joined) ∉ output run) ∧
  exit_status (Uncaught raised) = 1%Z ∧
  (∀ fit' predict',
     main parse_num sklearn_installed model fit' predict' games summary teams = run) ∧
  (∀ table cleaned,
     clean parse_num table = Ok cleaned →
     Forall (λ f, f ∈ columns cleaned) features) ∧
  (∀ table l, ErrMissingFeatures l ∉ output (train model fit table)).
Proof.
  intros Hjoin Hmissing run missing raised.
  pose proof (clean_without_a_feature parse_num joined Hmissing) as Hclean.
  assert (∀ fit' predict',
    main parse_num sklearn_installed model fit' predict' games summary teams
    = Prog [] (inl (Uncaught raised))) as Hrun.
  { intros fit' predict'. unfold main, prepare.
    by rewrite Hjoin, pbind_lift_Ok, Hclean. }
  split; [exact Hclean|]. subst run. rewrite (Hrun fit predict).
  split; [done|]. repeat (split; [apply not_elem_of_nil|]).
  split; [done|]. split; [exact Hrun|]. split.
  - intros table cleaned Hcleaned. by eapply clean_columns.
  - intros table l. apply explicit_check_is_dead.
Qed.

Lemma missing_feature_is_never_reported_witness :
  join_tables Sample.games Gaps.summary_no_momentum Sample.teams
  = Ok Gaps.joined_no_momentum ∧
  (MOMENTUM ∉ columns Gaps.joined_no_momentum) ∧
  main Sample.parse_num true Sample.model Sample.fit Sample.predict
       Sample.games Gaps.summary_no_momentum Sample.teams
  = Prog [] (inl (Uncaught (KeyError [MOMENTUM]))).
Proof.
  assert (join_tables Sample.games Gaps.summary_no_momentum Sample.teams
          = Ok Gaps.joined_no_momentum) as Hjoin by (vm_compute; reflexivity).
  assert (MOMENTUM ∉ columns Gaps.joined_no_momentum) as Hno
    by (apply (bool_decide_unpack _); vm_compute; done).
  split; [exact Hjoin|]. split; [exact Hno|].
  assert (∃ f, f ∈ features ∧ f ∉ columns Gaps.joined_no_momentum) as Hmissing.
  { exists MOMENTUM. split; [|exact Hno]. right; left. }
  exact (proj1 (proj2 (missing_feature_is_never_reported Sample.parse_num true
           Sample.fit Sample.predict _ _ _ _ Hjoin Hmissing))).
Defined.

(** ** The mean of line 114 *)

Lemma mean_total col : existsb is_str col = false → ∃ c, mean col = Ok c.
Proof.
  intros Hcol. unfold mean. rewrite Hcol. destruct (omap number col); by eexists.
Qed.

Lemma existsb_false_Forall {A} (p : A → bool) (l : list A) :
  Forall (λ x, p x = false) l → existsb p l = false.
Proof. induction 1 as [|x l Hx _ IH]; simpl; [done|]. by rewrite Hx, IH. Qed.

(** After cleaning, no cell of the weighted score column is a string. *)
Lemma clean_numeric parse_num games cleaned i :
  clean parse_num games = Ok cleaned →
  position WPOS (columns cleaned) = Some i →
  Forall (λ r, is_str (at_pos i r) = false) (rows cleaned).
Proof.
  intros Hclean Hi. destruct (clean_inv _ _ _ Hclean) as [Hall [i' Hi']].
  rewrite (clean_Ok _ _ i' Hi' Hall) in Hclean. injection Hclean as <-.
  simpl in *. assert (i' = i) as -> by congruence.
  apply Forall_forall. intros r [_ Hr]%list_elem_of_filter.
  apply list_elem_of_fmap in Hr as (r0 & -> & _).
  rewrite at_pos_coerce_row, decide_True by done. apply to_numeric_not_str.
Qed.

Lemma at_pos_pick (ps : list nat) (r : list cell) k i :
  ps !! k = Some i → at_pos k (pick ps r) = at_pos i r.
Proof. intros Hk. unfold at_pos at 1, pick. by rewrite list_lookup_fmap, Hk. Qed.

(** The mean is computed without an exception on the feature table of a
    cleaned table. *)
Lemma mean_weighted_score_total parse_num games cleaned X :
  clean parse_num games = Ok cleaned →
  getitems cleaned features = Ok X →
  ∃ c, mean_weighted_score X = Ok c.
Proof.
  intros Hclean HX. unfold getitems in HX.
  apply bind_Ok_inv in HX as (ps & Hps & HX). injection HX as <-.
  apply positions_inv in Hps as [Hall ->].
  destruct (position_is_Some WPOS (columns cleaned)) as [i Hi].
  { apply (proj1 (Forall_forall _ _) Hall). left. }
  unfold mean_weighted_score, getitem. simpl.
  apply mean_total, existsb_false_Forall, Forall_fmap, Forall_fmap.
  eapply Forall_impl; [exact (clean_numeric _ _ _ _ Hclean Hi)|].
  intros r Hr. simpl. erewrite at_pos_pick; [exact Hr|]. simpl. by rewrite Hi.
Qed.

(** ** What a run that reaches the predictions has been through *)

Lemma pbind_value_inv {A B} (m : prog A) (k : A → prog B) o (b : B) :
  (m ≫= k) = Prog o (inr b) →
  ∃ o1 a o2, m = Prog o1 (inr a) ∧ k a = Prog o2 (inr b) ∧ o = o1 ++ o2.
Proof.
  destruct m as [o1 [s|a]]; [done|].
  rewrite pbind_value. destruct (k a) as [o2 r] eqn:Hk. simpl.
  intros [= <- ->]. by exists o1, a, o2.
Qed.

Lemma lift_value_inv {A} (m : result A) o (a : A) :
  lift m = Prog o (inr a) → m = Ok a ∧ o = [].
Proof. destruct m as [e|a']; [done|]. by intros [= <- <-]. Qed.

Lemma train_inv {model} fit games o (m : model) X :
  train model fit games = Prog o (inr (m, X)) →
  getitems games features = Ok X ∧
  ∃ y, getitem games "points_scored" = Ok y ∧ fit X y = Ok m.
Proof.
  unfold train, train_body.
  destruct (getitems games features) as [e|X'] eqn:HX; [by destruct e|].
  rewrite pbind_lift_Ok.
  destruct (getitem games "points_scored") as [e|y] eqn:Hy; [by destruct e|].
  rewrite pbind_lift_Ok.
  destruct (filter _ features); [|done].
  destruct (fit X' y) as [e|m'] eqn:Hfit; [by destruct e|].
  intros [= <- <- <-]. split; [done|]. by exists y.
Qed.

Lemma prepare_inv parse_num sklearn_installed {model} fit games summary teams
    o (m : model) X :
  prepare parse_num sklearn_installed model fit games summary teams
  = Prog o (inr (m, X)) →
  ∃ joined cleaned y,
    join_tables games summary teams = Ok joined ∧
    clean parse_num joined = Ok cleaned ∧
    getitems cleaned features = Ok X ∧
    getitem cleaned "points_scored" = Ok y ∧
    fit X y = Ok m.
Proof.
  unfold prepare.
  intros (? & joined & ? & [Hjoin _]%lift_value_inv & H & _)%pbind_value_inv.
  apply pbind_value_inv in H as (? & cleaned & ? & [Hclean _]%lift_value_inv & H & _).
  apply pbind_value_inv in H as (? & [] & ? & _ & H & _).
  apply pbind_value_inv in H as (? & [] & ? & _ & H & _).
  apply pbind_value_inv in H as (? & [] & ? & _ & H & _).
  apply train_inv in H as (HX & y & Hy & Hfit).
  by exists joined, cleaned, y.
Qed.

(** Once the model is trained, line 114 returns. *)
Lemma mean_after_prepare parse_num sklearn_installed {model} fit games summary teams
    o (m : model) X :
  prepare parse_num sklearn_installed model fit games summary teams
  = Prog o (inr (m, X)) →
  ∃ c, mean_weighted_score X = Ok c.
Proof.
  intros (joined & cleaned & y & _ & Hclean & HX & _)%prepare_inv.
  by eapply mean_weighted_score_total.
Qed.

(** C9. The mean of the weighted score column computed at line 114 is used
    by nothing that follows: the script with that line removed prints the
    same lines and ends in the same way on every input, so the predicted
    scores, the winner and the margin are the same.  (The line cannot raise
    either: it runs on a column that the cleaning step has made numeric.) *)
Theorem mean_weighted_score_is_unused parse_num sklearn_installed {model}
    (fit : DataFrame → list cell → result model)
    (predict : model → DataFrame → result (list Qc)) games summary teams :
  main parse_num sklearn_installed model fit predict games summary teams
  = main_without_mean parse_num sklearn_installed model fit predict
      games summary teams.
Proof.
  unfold main, main_without_mean.
  destruct (prepare parse_num sklearn_installed model fit games summary teams)
    as [o [s|[m X]]] eqn:Hprepare; [done|].
  rewrite !pbind_value. simpl.
  destruct (mean_after_prepare _ _ _ _ _ _ _ _ _ Hprepare) as [c ->].
  by rewrite pbind_lift_Ok.
Qed.

(** ** Looking up the two teams *)

Create HintDb fruitless.

Lemma fruitless_bind {A B} (m : prog A) (k : A → prog B) :
  fruitless m → (∀ a, fruitless (k a)) → fruitless (m ≫= k).
Proof.
  intros [Hout Hstop] Hk. destruct m as [o [s|a]].
  { rewrite pbind_stop. split; [done|]. simpl in *. intros ? [= <-]. by apply Hstop. }
  rewrite pbind_value. destruct (Hk a) as [Hout' Hstop'].
  split; [by apply Forall_app|done].
Qed.

Lemma fruitless_lift {A} (m : result A) : fruitless (lift m).
Proof.
  destruct m as [e|a]; (split; [constructor|]); simpl; [|done].
  by intros s [= <-].
Qed.

Lemma fruitless_ret {A} (a : A) : fruitless (mret a : prog A).
Proof. by split; [constructor|]. Qed.

Lemma fruitless_say (l : line) : is_prediction l = false → fruitless (say l).
Proof. intros Hl. split; [by repeat constructor|done]. Qed.

Lemma fruitless_sys_exit {A} : fruitless (sys_exit 1 : prog A).
Proof. split; [constructor|]. by intros s [= <-]. Qed.

Lemma fruitless_try_except {A} (m : prog A) (h : exn → prog A) :
  fruitless m → (∀ e, fruitless (h e)) → fruitless (try_except m h).
Proof.
  intros [Hout Hstop] Hh. unfold try_except.
  destruct m as [o [[e|code]|a]]; simpl in *; [|by split|by split].
  destruct (Hh e) as [Hout' Hstop']. split; [by apply Forall_app|done].
Qed.

#[local] Hint Resolve fruitless_lift fruitless_ret fruitless_sys_exit
  fruitless_try_except : fruitless.
#[local] Hint Extern 1 (fruitless (say _)) =>
  (apply fruitless_say; reflexivity) : fruitless.
#[local] Hint Extern 2 (fruitless (_ ≫= _)) =>
  (apply fruitless_bind; [|intros ?]) : fruitless.

Lemma fruitless_train {model} fit games : fruitless (train model fit games).
Proof.
  unfold train. apply fruitless_try_except.
  - unfold train_body.
    apply fruitless_bind; [auto with fruitless|intros X].
    apply fruitless_bind; [auto with fruitless|intros y].
    destruct (filter _ features); cbv beta iota zeta; auto 8 with fruitless.
  - intros e. unfold train_handler. destruct e; auto 8 with fruitless.
Qed.

Lemma fruitless_import sklearn_installed : fruitless (import_sklearn sklearn_installed).
Proof. unfold import_sklearn. destruct sklearn_installed; auto 8 with fruitless. Qed.

Lemma fruitless_prepare parse_num sklearn_installed {model} fit games summary teams :
  fruitless (prepare parse_num sklearn_installed model fit games summary teams).
Proof.
  unfold prepare.
  pose proof (@fruitless_train model fit).
  pose proof (fruitless_import sklearn_installed).
  auto 12 with fruitless.
Qed.

Lemma team_row_found df name i :
  position "Team" (columns df) = Some i →
  has_team df name → ∃ s, team_row df name = Ok s.
Proof.
  intros Hi Hteam. unfold has_team, team_column in Hteam. rewrite Hi in Hteam.
  apply list_elem_of_fmap in Hteam as (r & Hr & Hin).
  unfold team_row, where_eq, locate. rewrite Hi, !bind_Ok. unfold iloc0. simpl.
  destruct (filter _ (rows df)) as [|r' rs] eqn:E; [|by eexists].
  assert (r ∈ filter (λ r, at_pos i r = Str name) (rows df)) as Hr'
    by by apply list_elem_of_filter.
  rewrite E in Hr'. by apply elem_of_nil in Hr'.
Qed.

Lemma team_row_absent df name i :
  position "Team" (columns df) = Some i →
  ¬ has_team df name → team_row df name = Raise IndexError.
Proof.
  intros Hi Hteam. unfold has_team, team_column in Hteam. rewrite Hi in Hteam.
  unfold team_row, where_eq, locate. rewrite Hi, !bind_Ok. unfold iloc0. simpl.
  destruct (filter _ (rows df)) as [|r rs] eqn:E; [done|].
  assert (r ∈ filter (λ r, at_pos i r = Str name) (rows df)) as Hr
    by (rewrite E; left).
  apply list_elem_of_filter in Hr as [Hr Hin].
  destruct Hteam. rewrite <-Hr. by apply list_elem_of_fmap_2.
Qed.

Lemma try_except_throw {A} (e : exn) (h : exn → prog A) :
  try_except (throw e) h = h e.
Proof. unfold try_except. simpl. by destruct (h e). Qed.

Lemma getitem_Team df i :
  position "Team" (columns df) = Some i → getitem df "Team" = Ok (team_column df).
Proof. intros Hi. unfold getitem, team_column. by rewrite Hi. Qed.

Lemma lookup_handler_IndexError summary teams i j :
  position "Team" (columns summary) = Some i →
  position "Team" (columns teams) = Some j →
  lookup_handler summary teams IndexError
  = Prog (team_report summary teams) (inl (SysExit 1)).
Proof.
  intros Hi Hj. unfold lookup_handler.
  by rewrite (getitem_Team _ _ Hi), (getitem_Team _ _ Hj).
Qed.

Ltac look df name i Hi Hj :=
  let Hfound := fresh "Hfound" in
  let Habsent := fresh "Habsent" in
  destruct (decide (has_team df name)) as [Hfound|Habsent];
  [ destruct (team_row_found df name i ltac:(assumption) Hfound) as [? ->];
    rewrite pbind_lift_Ok
  | rewrite (team_row_absent df name i ltac:(assumption) Habsent),
      pbind_lift_Raise, try_except_throw;
    exact (lookup_handler_IndexError _ _ _ _ Hi Hj) ].

(** A team without a row, in a table that has a Team column, ends the
    lookups with the report and exit status 1. *)
Lemma lookup_missing summary teams i j :
  position "Team" (columns summary) = Some i →
  position "Team" (columns teams) = Some j →
  ¬ has_team summary PATRIOTS ∨ ¬ has_team teams SEAHAWKS ∨
  ¬ has_team summary SEAHAWKS ∨ ¬ has_team teams PATRIOTS →
  lookup summary teams = Prog (team_report summary teams) (inl (SysExit 1)).
Proof.
  intros Hi Hj Hmissing. unfold lookup, lookup_body.
  look summary PATRIOTS i Hi Hj. look teams SEAHAWKS j Hi Hj.
  look summary SEAHAWKS i Hi Hj. look teams PATRIOTS j Hi Hj.
  tauto.
Qed.

Lemma team_column_renamed summary :
  team_column (rename_summary summary) = team_column summary.
Proof.
  unfold team_column, rename_summary, rename. simpl.
  by rewrite position_fmap_label by apply rename_summary_Team.
Qed.

(** The tables of a run that got through the joins have a Team column. *)
Lemma join_tables_Team games summary teams joined :
  join_tables games summary teams = Ok joined →
  (∃ i, position "Team" (columns (rename_summary summary)) = Some i) ∧
  (∃ j, position "Team" (columns teams) = Some j).
Proof.
  unfold join_tables. intros (opp & Hopp & Hjoin)%bind_Ok_inv.
  apply join_inv in Hjoin as (g1 & g2 & Hg1 & _).
  destruct (teams_opp_inv _ _ Hopp) as (jT & _ & HjT & _).
  destruct (merge_unique _ _ _ _ _ _ Hg1) as (_ & j1 & _ & Hj1 & _).
  eauto.
Qed.

(** C8, as amended. When one of the two teams has no row in the summary
    table or in the teams table, the run ends with exit status 1 and prints
    no prediction.  If it gets as far as the lookups, that is, if the model
    was trained, it then prints the message, which names the two teams and
    not the one that is missing, the first ten distinct team names of the
    summary table and those of the teams table, and exits with status 1. *)
Theorem missing_team_stops_the_run parse_num sklearn_installed {model}
    (fit : DataFrame → list cell → result model)
    (predict : model → DataFrame → result (list Qc)) games summary teams :
  ¬ has_team summary PATRIOTS ∨ ¬ has_team teams SEAHAWKS ∨
  ¬ has_team summary SEAHAWKS ∨ ¬ has_team teams PATRIOTS →
  let run := main parse_num sklearn_installed model fit predict games summary teams in
  (∃ s, outcome run = inl s ∧ exit_status s = 1%Z) ∧
  Forall (λ l, is_prediction l = false) (output run) ∧
  (∀ o m X,
     prepare parse_num sklearn_installed model fit games summary teams
     = Prog o (inr (m, X)) →
     run = Prog (o ++ [Text could_not_find;
                       AvailableTeamsSummary (take 10 (unique (team_column summary)));
                       AvailableTeamsTeams (take 10 (unique (team_column teams)))])
                (inl (SysExit 1))) ∧
  contains "New England Patriots" could_not_find = true ∧
  contains "Seattle Seahawks" could_not_find = true.
Proof.
  intros Hmissing run.
  assert (∀ o m X,
     prepare parse_num sklearn_installed model fit games summary teams
     = Prog o (inr (m, X)) →
     run = Prog (o ++ team_report summary teams) (inl (SysExit 1))) as Hreach.
  { intros o m X Hprepare. subst run. unfold main.
    rewrite Hprepare, pbind_value. simpl.
    destruct (mean_after_prepare _ _ _ _ _ _ _ _ _ Hprepare) as [c ->].
    rewrite pbind_lift_Ok. unfold finish.
    apply prepare_inv in Hprepare as (joined & _ & _ & Hjoin & _).
    destruct (join_tables_Team _ _ _ _ Hjoin) as [[i Hi] [j Hj]].
    rewrite (lookup_missing _ _ i j Hi Hj), pbind_stop.
    - unfold team_report. by rewrite team_column_renamed.
    - unfold has_team. by rewrite team_column_renamed. }
  pose proof (fruitless_prepare parse_num sklearn_installed fit games summary teams)
    as [Hquiet Hstop].
  destruct (prepare parse_num sklearn_installed model fit games summary teams)
    as [o [s|[m X]]] eqn:Hprepare.
  - assert (run = Prog o (inl s)) as Hrun.
    { subst run. unfold main. by rewrite Hprepare, pbind_stop. }
    rewrite Hrun. simpl. split; [exists s; split; [done|by apply Hstop]|].
    split; [done|]. split; [done|]. split; reflexivity.
  - rewrite (Hreach o m X eq_refl). simpl.
    split; [by exists (SysExit 1)|]. split.
    + apply Forall_app. split; [done|]. by repeat constructor.
    + split; [|split; reflexivity]. intros o' m' X' [= <- <- <-]. done.
Qed.

Lemma missing_team_stops_the_run_witness :
  ¬ has_team Sample.summary_pats SEAHAWKS ∧
  main Sample.parse_num true Sample.model Sample.fit Sample.predict
       Sample.games_one Sample.summary_pats Sample.teams
  = Prog [LoadedGames 1; Text features_line; Text "MODEL TRAINED";
          Text could_not_find;
          AvailableTeamsSummary [Str PATRIOTS];
          AvailableTeamsTeams [Str PATRIOTS; Str SEAHAWKS]]
         (inl (SysExit 1)).
Proof.
  assert (¬ has_team Sample.summary_pats SEAHAWKS) as Hmissing.
  { apply (bool_decide_unpack _). vm_compute. done. }
  split; [exact Hmissing|].
  refine (proj1 (proj2 (proj2
            (missing_team_stops_the_run Sample.parse_num true Sample.fit Sample.predict
               Sample.games_one Sample.summary_pats Sample.teams
               (or_intror (or_intror (or_introl Hmissing))))))
            [LoadedGames 1; Text features_line; Text "MODEL TRAINED"] tt _ _).
  vm_compute. reflexivity.
Defined.

(** C8, as stated, fails: with the Seahawks absent from Teams.csv and their
    game the only one, the join leaves the opponent's points allowed
    missing, cleaning keeps no row, and the run ends in the handler of the
    training block (or at the import, without scikit-learn).  The exit
    status is 1 and nothing is predicted, but neither the message about the
    teams nor a sample of team names is printed. *)
Lemma missing_team_without_report :
  ¬ has_team Gaps.teams_pats SEAHAWKS ∧
  main Sample.parse_num true Sample.model Sample.fit Sample.predict
       Sample.games_one Sample.summary Gaps.teams_pats
  = Prog [LoadedGames 0; Text features_line;
          ErrTraining (ValueError "Found array with 0 sample(s)");
          Traceback (ValueError "Found array with 0 sample(s)")]
         (inl (SysExit 1)) ∧
  (∀ sklearn_installed l,
     l ∈ team_report Sample.summary Gaps.teams_pats →
     l ∉ output (main Sample.parse_num sklearn_installed Sample.model Sample.fit
                   Sample.predict Sample.games_one Sample.summary Gaps.teams_pats)).
Proof.
  split; [apply (bool_decide_unpack _); vm_compute; done|].
  split; [vm_compute; reflexivity|].
  intros sklearn_installed l Hl Hout.
  assert (l ∈ [Text could_not_find;
               AvailableTeamsSummary [Str PATRIOTS; Str SEAHAWKS];
               AvailableTeamsTeams [Str PATRIOTS]]) as Hl'
    by (revert Hl; vm_compute; done).
  clear Hl. destruct sklearn_installed; vm_compute in Hout;
    repeat (apply elem_of_cons in Hl' as [->|Hl']);
    try (by apply elem_of_nil in Hl');
    repeat (apply elem_of_cons in Hout as [Hout|Hout]; [discriminate Hout|]);
    by apply elem_of_nil in Hout.
Qed.

(** ** A complete run *)

(** One game, both teams in both tables: the model is trained and the
    Patriots are predicted to win by six points. *)
Example sample_run :
  main Sample.parse_num true Sample.model Sample.fit Sample.predict
       Sample.games_one Sample.summary Sample.teams
  = Prog [LoadedGames 1; Text features_line; Text "MODEL TRAINED";
          Text (newline +:+ rule);
          Text "PREDICTION: New England Patriots vs Seattle Seahawks";
          Text rule;
          PatriotsPoints (Q2Qc 52); SeahawksPoints (Q2Qc 46);
          Text (newline +:+ rule);
          PredictedWinner "New England Patriots";
          PredictedMargin (Q2Qc 6);
          Text (rule +:+ newline)]
         (inr tt).
Proof. vm_compute. reflexivity. Qed.

(** The same game with the target missing: the stand-in fit refuses it and
    the run ends in the handler of lines 107-111. *)
Example sample_run_missing_target :
  main Sample.parse_num true Sample.model Sample.fit Sample.predict
       Sample.games Sample.summary Sample.teams
  = Prog [LoadedGames 2; Text features_line;
          ErrTraining (ValueError "Input y contains NaN.");
          Traceback (ValueError "Input y contains NaN.")]
         (inl (SysExit 1)).
Proof. vm_compute. reflexivity. Qed.

(** Without scikit-learn the run ends at the import. *)
Example sample_run_no_sklearn :
  outcome (main Sample.parse_num false Sample.model Sample.fit Sample.predict
             Sample.games_one Sample.summary Sample.teams)
  = inl (SysExit 1).
Proof. vm_compute. reflexivity. Qed.

(** * Further properties of the script *)

(** ** The loader *)

Lemma check_files_missing exists_file cwd files k file :
  list_find (λ f, exists_file f = false) files = Some (k, file) →
  check_files exists_file cwd files
  = Prog [Text ("ERROR: " +:+ file +:+ " not found in current directory!");
          Text ("Current directory: " +:+ cwd)]
         (inl (SysExit 1)).
Proof.
  revert k. induction files as [|f files IH]; intros k; [done|].
  simpl. destruct (exists_file f) eqn:Hf.
  - rewrite decide_False by done.
    intros ([k' file'] & Hfind & [= -> ->])%fmap_Some. by eapply IH.
  - rewrite decide_True by done. by intros [= <- <-].
Qed.

Lemma check_files_present exists_file cwd files :
  Forall (λ f, exists_file f = true) files →
  check_files exists_file cwd files = mret tt.
Proof. induction 1 as [|f files Hf _ IH]; simpl; [done|]. by rewrite Hf. Qed.

(** X1. The three files are checked in the order Games.csv, Summary.csv,
    Teams.csv before anything is read: the first that does not exist is
    named in the error line, the working directory is printed, and the run
    exits with status 1, whatever the files hold. *)
Theorem missing_file_is_reported exists_file cwd read_csv parse_num
    sklearn_installed {model} (fit : DataFrame → list cell → result model)
    (predict : model → DataFrame → result (list Qc)) k file :
  list_find (λ f, exists_file f = false) required_files = Some (k, file) →
  script exists_file cwd read_csv parse_num sklearn_installed model fit predict
  = Prog [Text ("ERROR: " +:+ file +:+ " not found in current directory!");
          Text ("Current directory: " +:+ cwd)]
         (inl (SysExit 1)).
Proof.
  intros Hfind. unfold script.
  by rewrite (check_files_missing _ _ _ _ _ Hfind), pbind_stop.
Qed.

Lemma missing_file_is_reported_witness :
  script Files.no_summary "/home/fan" Files.read_csv Sample.parse_num true
         Sample.model Sample.fit Sample.predict
  = Prog [Text "ERROR: Summary.csv not found in current directory!";
          Text "Current directory: /home/fan"]
         (inl (SysExit 1)).
Proof.
  apply (missing_file_is_reported Files.no_summary "/home/fan" Files.read_csv
           Sample.parse_num true Sample.fit Sample.predict 1 "Summary.csv").
  reflexivity.
Defined.

Lemma load_failed read_csv e :
  read_all read_csv = inl e →
  load read_csv = Prog [read_error_line e] (inl (SysExit 1)).
Proof. intros He. unfold load. rewrite He. by destruct e. Qed.

(** X2. When the three files exist and a read raises, the run prints one
    line and exits with status 1: the line is that of the first read that
    raised, in the order Games.csv, Summary.csv, Teams.csv, with the
    exception's text, worded for a file not found or for any other
    error. *)
Theorem unreadable_file_is_reported exists_file cwd read_csv parse_num
    sklearn_installed {model} (fit : DataFrame → list cell → result model)
    (predict : model → DataFrame → result (list Qc)) e :
  Forall (λ f, exists_file f = true) required_files →
  read_csv "Games.csv" = inl e ∨
  (∃ games, read_csv "Games.csv" = inr games ∧ read_csv "Summary.csv" = inl e) ∨
  (∃ games summary,
     read_csv "Games.csv" = inr games ∧ read_csv "Summary.csv" = inr summary ∧
     read_csv "Teams.csv" = inl e) →
  script exists_file cwd read_csv parse_num sklearn_installed model fit predict
  = Prog [match e with
          | FileNotFoundError msg =>
              Text ("ERROR: Could not find required CSV file: " +:+ msg)
          | OtherReadError msg => Text ("ERROR reading CSV files: " +:+ msg)
          end]
         (inl (SysExit 1)).
Proof.
  intros Hall Hread. unfold script.
  rewrite (check_files_present _ _ _ Hall), pbind_ret.
  assert (read_all read_csv = inl e) as He.
  { unfold read_all.
    destruct Hread as [->|[(g & -> & ->)|(g & s & -> & -> & ->)]]; done. }
  by rewrite (load_failed _ _ He), pbind_stop.
Qed.

Lemma unreadable_file_is_reported_witness :
  script Files.all_there "/home/fan" Files.read_csv_bad_teams Sample.parse_num true
         Sample.model Sample.fit Sample.predict
  = Prog [Text "ERROR reading CSV files: Error tokenizing data. C error: Expected 4 fields in line 3, saw 5"]
         (inl (SysExit 1)).
Proof.
  apply (unreadable_file_is_reported Files.all_there "/home/fan"
           Files.read_csv_bad_teams Sample.parse_num true Sample.fit Sample.predict
           (OtherReadError "Error tokenizing data. C error: Expected 4 fields in line 3, saw 5")).
  - by repeat constructor.
  - right. right. by eexists _, _.
Defined.

(** ** How a run ends *)

Lemma report_returns a b : outcome (report a b) = inr tt.
Proof.
  unfold report. destruct (winner_margin a b) as [w mg].
  by destruct (decide (w ≠ "Tie")).
Qed.

Lemma settled_stop o (s : stop) :
  Forall (λ l, is_prediction l = false) o → exit_status s = 1%Z →
  settled (Prog o (inl s)).
Proof.
  intros Ho Hs. left. split; [|by exists s].
  split; [done|]. by intros s' [= <-].
Qed.

Lemma settled_bind {A} (m : prog A) (k : A → prog unit) :
  fruitless m → (∀ a, settled (k a)) → settled (m ≫= k).
Proof.
  intros [Hout Hstop] Hk. destruct m as [o [s|a]].
  - rewrite pbind_stop. apply settled_stop; [done|]. by apply Hstop.
  - rewrite pbind_value. simpl in Hout.
    destruct (Hk a) as [[[Hout' Hstop'] [s Hs]]|[Hend (pre & p1 & p2 & Hpre & Hout')]].
    + rewrite Hs. apply settled_stop; [by apply Forall_app|]. by apply Hstop'.
    + right. split; [done|]. exists (o ++ pre), p1, p2.
      split; [by apply Forall_app|]. simpl. by rewrite Hout', app_assoc.
Qed.

Lemma check_files_cons exists_file cwd file files :
  check_files exists_file cwd (file :: files)
  = if exists_file file then check_files exists_file cwd files
    else
      say (Text ("ERROR: " +:+ file +:+ " not found in current directory!"));;
      say (Text ("Current directory: " +:+ cwd));;
      sys_exit 1.
Proof. reflexivity. Qed.

Lemma fruitless_check_files exists_file cwd files :
  fruitless (check_files exists_file cwd files).
Proof.
  induction files as [|f files IH]; [apply fruitless_ret|].
  rewrite check_files_cons. destruct (exists_file f); [done|].
  auto 8 with fruitless.
Qed.

Lemma fruitless_load read_csv : fruitless (load read_csv).
Proof.
  unfold load. destruct (read_all read_csv) as [[msg|msg]|tables];
    auto 8 with fruitless.
Qed.

Lemma fruitless_lookup summary teams : fruitless (lookup summary teams).
Proof.
  unfold lookup. apply fruitless_try_except.
  - unfold lookup_body. auto 12 with fruitless.
  - intros e. unfold lookup_handler. destruct e; auto 12 with fruitless.
Qed.

Lemma settled_predict_and_report parse_num {model} predict (m : model) teams
    pat_off sea_def sea_off pat_def :
  settled (predict_and_report parse_num model predict m teams
             pat_off sea_def sea_off pat_def).
Proof.
  unfold predict_and_report.
  apply settled_bind; [apply fruitless_lift|intros df1].
  apply settled_bind; [apply fruitless_lift|intros pat_pred].
  do 3 (apply settled_bind; [auto with fruitless|intros _]).
  apply settled_bind; [apply fruitless_lift|intros df2].
  apply settled_bind; [apply fruitless_lift|intros sea_pred].
  right. split; [apply report_returns|].
  by exists [], pat_pred, sea_pred.
Qed.

Lemma settled_main parse_num sklearn_installed {model} fit predict
    games summary teams :
  settled (main parse_num sklearn_installed model fit predict games summary teams).
Proof.
  unfold main.
  apply settled_bind; [apply fruitless_prepare|intros [m X]].
  apply settled_bind; [apply fruitless_lift|intros _].
  unfold finish.
  apply settled_bind; [apply fruitless_lookup|intros [[[pat_off sea_def] sea_off] pat_def]].
  apply settled_predict_and_report.
Qed.

(** X3. However the files, the tables, the lexer, the fit and the prediction
    behave, a run of the script ends in one of two ways: it stops early with
    exit status 1 and has printed no score, winner, margin or tie; or it
    reaches its last line, and has then printed the Patriots' score, the
    Seahawks' score and the verdict, in this order and once. *)
Theorem run_stops_with_1_or_predicts exists_file cwd read_csv parse_num
    sklearn_installed {model} (fit : DataFrame → list cell → result model)
    (predict : model → DataFrame → result (list Qc)) :
  let run := script exists_file cwd read_csv parse_num sklearn_installed
                    model fit predict in
  ((∃ s, outcome run = inl s ∧ exit_status s = 1%Z) ∧
   Forall (λ l, is_prediction l = false) (output run)) ∨
  (outcome run = inr tt ∧
   ∃ pre a b,
     Forall (λ l, is_prediction l = false) pre ∧
     output run = pre ++ PatriotsPoints a :: SeahawksPoints b :: output (report a b)).
Proof.
  intros run.
  assert (settled run) as [[[Hout Hstop] [s Hs]]|Hend].
  { subst run. unfold script.
    apply settled_bind; [apply fruitless_check_files|intros _].
    apply settled_bind; [apply fruitless_load|intros [[games summary] teams]].
    apply settled_main. }
  - left. split; [|done]. exists s. split; [done|]. by apply Hstop.
  - by right.
Qed.

(** ** Before and around the fit *)

(** X4. Without scikit-learn nothing is fitted and nothing is predicted: the
    run does not depend on [fit] and [predict], and after a join and a
    cleaning that returned it prints the number of rows, the features, the
    two lines about the import, and exits with status 1. *)
Theorem without_sklearn_nothing_is_fitted parse_num {model}
    (fit : DataFrame → list cell → result model)
    (predict : model → DataFrame → result (list Qc)) games summary teams :
  (∀ fit' predict',
     main parse_num false model fit' predict' games summary teams
     = main parse_num false model fit predict games summary teams) ∧
  (∀ joined cleaned,
     join_tables games summary teams = Ok joined →
     clean parse_num joined = Ok cleaned →
     main parse_num false model fit predict games summary teams
     = Prog [LoadedGames (length (rows cleaned));
             Text features_line;
             Text "ERROR: scikit-learn is not installed. Please install it with: pip install scikit-learn";
             ErrSklearnDetails ImportError]
            (inl (SysExit 1))).
Proof.
  assert (∀ fit' predict',
            main parse_num false model fit' predict' games summary teams
            = match join_tables games summary teams with
              | Raise e => throw e
              | Ok joined =>
                  match clean parse_num joined with
                  | Raise e => throw e
                  | Ok cleaned =>
                      Prog [LoadedGames (length (rows cleaned));
                            Text features_line;
                            Text "ERROR: scikit-learn is not installed. Please install it with: pip install scikit-learn";
                            ErrSklearnDetails ImportError]
                           (inl (SysExit 1))
                  end
              end) as Hmain.
  { intros fit' predict'. unfold main, prepare.
    destruct (join_tables games summary teams) as [e|joined]; [done|].
    rewrite pbind_lift_Ok.
    destruct (clean parse_num joined) as [e|cleaned]; [done|].
    by rewrite pbind_lift_Ok. }
  split.
  - intros fit' predict'. by rewrite !Hmain.
  - intros joined cleaned Hjoin Hclean. by rewrite Hmain, Hjoin, Hclean.
Qed.

Lemma without_sklearn_nothing_is_fitted_witness :
  main Sample.parse_num false Sample.model Sample.fit Sample.predict
       Sample.games Sample.summary Sample.teams
  = Prog [LoadedGames 2;
          Text features_line;
          Text "ERROR: scikit-learn is not installed. Please install it with: pip install scikit-learn";
          ErrSklearnDetails ImportError]
         (inl (SysExit 1)).
Proof.
  apply (proj2 (without_sklearn_nothing_is_fitted Sample.parse_num Sample.fit
                  Sample.predict Sample.games Sample.summary Sample.teams)
           Sample.joined Sample.cleaned); vm_compute; reflexivity.
Defined.

Lemma getitem_missing df name :
  name ∉ columns df → getitem df name = Raise (KeyError [name]).
Proof. intros Hname%position_None. unfold getitem. by rewrite Hname. Qed.

(** X5. A table that has the four features and no [points_scored] column
    stops the training block before any fit: it prints the missing-column
    error with the label [points_scored], then the columns that are there,
    and exits with status 1. *)
Theorem missing_target_column_is_reported {model}
    (fit : DataFrame → list cell → result model) games :
  Forall (λ f, f ∈ columns games) features →
  "points_scored" ∉ columns games →
  train model fit games
  = Prog [ErrMissingColumn (KeyError ["points_scored"]);
          AvailableColumns (columns games)]
         (inl (SysExit 1)).
Proof.
  intros Hall Hno. unfold train, train_body.
  destruct (getitems_present _ _ Hall) as (X & -> & _).
  by rewrite pbind_lift_Ok, (getitem_missing _ _ Hno).
Qed.

Lemma missing_target_column_is_reported_witness :
  train Sample.model Sample.fit More.no_target
  = Prog [ErrMissingColumn (KeyError ["points_scored"]);
          AvailableColumns [WPOS; MOMENTUM; OPP_ALLOWED; OPP_TIER]]
         (inl (SysExit 1)).
Proof.
  apply (missing_target_column_is_reported Sample.fit More.no_target);
    apply (bool_decide_unpack _); vm_compute; done.
Defined.

(** X6. On a table that has the four features and the target, the training
    block does what the fit does, without looking at the number of rows: a
    fit that returns gives [MODEL TRAINED] and the model; a fit that raises
    gives two lines and exit status 1, the training error with its
    traceback, or, when it raised a [KeyError], the missing-column error with
    the available columns. *)
Theorem training_ends_as_the_fit_does {model}
    (fit : DataFrame → list cell → result model) games X y :
  getitems games features = Ok X →
  getitem games "points_scored" = Ok y →
  train model fit games
  = match fit X y with
    | Ok m => Prog [Text "MODEL TRAINED"] (inr (m, X))
    | Raise (KeyError labels) =>
        Prog [ErrMissingColumn (KeyError labels); AvailableColumns (columns games)]
             (inl (SysExit 1))
    | Raise e => Prog [ErrTraining e; Traceback e] (inl (SysExit 1))
    end.
Proof.
  intros HX Hy. unfold train, train_body. rewrite HX, Hy, !pbind_lift_Ok.
  assert (Forall (λ f, f ∈ columns games) features) as Hall.
  { unfold getitems in HX. apply bind_Ok_inv in HX as (ps & Hps & _).
    by apply positions_inv in Hps as [? _]. }
  rewrite (nothing_missing _ _ Hall).
  destruct (fit X y) as [e|m]; [by destruct e|done].
Qed.

Lemma training_ends_as_the_fit_does_witness :
  train Sample.model Sample.fit More.emptied
  = Prog [ErrTraining (ValueError "Found array with 0 sample(s)");
          Traceback (ValueError "Found array with 0 sample(s)")]
         (inl (SysExit 1)).
Proof.
  apply (training_ends_as_the_fit_does Sample.fit More.emptied
           (mkFrame features []) []); reflexivity.
Defined.

Lemma cell_of_position cols r name i :
  position name cols = Some i → cell_of cols r name = at_pos i r.
Proof. intros Hi. unfold cell_of. by rewrite Hi. Qed.

Lemma pick_features cols r :
  Forall (λ n, n ∈ cols) features →
  pick (omap (λ n, position n cols) features) r
  = [cell_of cols r WPOS; cell_of cols r MOMENTUM;
     cell_of cols r OPP_ALLOWED; cell_of cols r OPP_TIER].
Proof.
  intros Hall. unfold features in *.
  apply Forall_cons in Hall as [[i0 H0]%position_is_Some Hall].
  apply Forall_cons in Hall as [[i1 H1]%position_is_Some Hall].
  apply Forall_cons in Hall as [[i2 H2]%position_is_Some Hall].
  apply Forall_cons in Hall as [[i3 H3]%position_is_Some _].
  rewrite !(cell_of_position _ _ _ _ H0), !(cell_of_position _ _ _ _ H1),
    !(cell_of_position _ _ _ _ H2), !(cell_of_position _ _ _ _ H3).
  simpl. by rewrite H0, H1, H2, H3.
Qed.

Lemma getitems_features_rows cleaned X :
  getitems cleaned features = Ok X →
  Forall (λ n, n ∈ columns cleaned) features ∧
  rows X
  = (λ r, [cell_of (columns cleaned) r WPOS; cell_of (columns cleaned) r MOMENTUM;
           cell_of (columns cleaned) r OPP_ALLOWED; cell_of (columns cleaned) r OPP_TIER])
    <$> rows cleaned.
Proof.
  unfold getitems. intros (ps & Hps & HX)%bind_Ok_inv. injection HX as <-.
  apply positions_inv in Hps as [Hall ->]. split; [done|]. simpl.
  apply list_fmap_ext. intros _ r _. by apply pick_features.
Qed.

(** The rows that leave the cleaning step have the four features, and a
    number for the weighted score. *)
Lemma clean_rows parse_num games cleaned r :
  clean parse_num games = Ok cleaned → r ∈ rows cleaned →
  has_features (columns cleaned) r ∧
  ∃ q, cell_of (columns cleaned) r WPOS = Num q.
Proof.
  intros Hclean Hr. destruct (clean_columns _ _ _ Hclean) as [_ Hall].
  destruct (position_is_Some WPOS (columns cleaned)) as [i Hi].
  { apply (proj1 (Forall_forall _ _) Hall). left. }
  pose proof (proj1 (Forall_forall _ _) (clean_numeric _ _ _ _ Hclean Hi) r Hr) as Hstr.
  destruct (clean_inv _ _ _ Hclean) as [Hall' [i' Hi']].
  rewrite (clean_Ok _ _ i' Hi' Hall') in Hclean. injection Hclean as <-.
  simpl in *. apply list_elem_of_filter in Hr as [Hfeat _]. split; [done|].
  apply Forall_cons in Hfeat as [Hna _].
  rewrite (cell_of_position _ _ _ _ Hi) in *.
  destruct (at_pos i r) as [q| |]; [by exists q|done|done].
Qed.

(** X7. The table of features taken from a cleaned table, which is what the
    fit is given, has one row of four cells for every cleaned row, and no
    cell of it is missing: the first is a number, the weighted score after
    coercion, and the next three are the momentum, the opponent's average of
    points allowed and the opponent's tier as they were joined. *)
Theorem features_of_a_cleaned_table_are_complete parse_num games cleaned X :
  clean parse_num games = Ok cleaned →
  getitems cleaned features = Ok X →
  columns X = features ∧
  length (rows X) = length (rows cleaned) ∧
  Forall (λ r, ∃ q mo a t,
            r = [Num q; mo; a; t] ∧
            isna mo = false ∧ isna a = false ∧ isna t = false)
         (rows X).
Proof.
  intros Hclean HX. split; [by eapply getitems_columns|].
  destruct (getitems_features_rows _ _ HX) as [Hall ->].
  split; [by rewrite length_fmap|].
  apply Forall_fmap, Forall_forall. intros r Hr. simpl.
  destruct (clean_rows _ _ _ _ Hclean Hr) as [Hfeat [q Hq]].
  unfold has_features, features in Hfeat.
  apply Forall_cons in Hfeat as [_ Hfeat].
  apply Forall_cons in Hfeat as [Hmo Hfeat].
  apply Forall_cons in Hfeat as [Ha Hfeat].
  apply Forall_cons in Hfeat as [Ht _].
  exists q, (cell_of (columns cleaned) r MOMENTUM),
    (cell_of (columns cleaned) r OPP_ALLOWED), (cell_of (columns cleaned) r OPP_TIER).
  by rewrite Hq.
Qed.

Lemma features_of_a_cleaned_table_are_complete_witness :
  clean Sample.parse_num Sample.joined = Ok Sample.cleaned ∧
  getitems Sample.cleaned features = Ok More.X ∧
  rows More.X
  = [[Sample.num 27; Sample.num 3; Sample.num 20; Sample.num 2];
     [Sample.num 27; Sample.num 3; Sample.num 20; Sample.num 2]] ∧
  length (rows More.X) = length (rows Sample.cleaned).
Proof.
  assert (clean Sample.parse_num Sample.joined = Ok Sample.cleaned) as Hclean
    by (vm_compute; reflexivity).
  assert (getitems Sample.cleaned features = Ok More.X) as HX
    by (vm_compute; reflexivity).
  split; [done|]. split; [done|]. split; [reflexivity|].
  exact (proj1 (proj2 (features_of_a_cleaned_table_are_complete _ _ _ _ Hclean HX))).
Defined.

Lemma omap_number_all (col : list cell) :
  Forall (λ c, ∃ q, c = Num q) col → length (omap number col) = length col.
Proof.
  induction 1 as [|c col [q ->] _ IH]; [done|]. csimpl. by rewrite IH.
Qed.

(** X8. The mean of line 114 is the missing marker exactly when cleaning has
    left no row, and a number otherwise: on the features of a cleaned table
    it skips no cell and meets no string. *)
Theorem mean_is_missing_iff_no_row parse_num games cleaned X :
  clean parse_num games = Ok cleaned →
  getitems cleaned features = Ok X →
  (rows cleaned = [] → mean_weighted_score X = Ok NaN) ∧
  (rows cleaned ≠ [] → ∃ q, mean_weighted_score X = Ok (Num q)).
Proof.
  intros Hclean HX.
  destruct (getitems_features_rows _ _ HX) as [Hall Hrows].
  assert (getitem X WPOS
          = Ok ((λ r, cell_of (columns cleaned) r WPOS) <$> rows cleaned)) as Hcol.
  { unfold getitem. rewrite (getitems_columns _ _ _ HX), Hrows.
    simpl. by rewrite <-list_fmap_compose. }
  unfold mean_weighted_score. rewrite Hcol, bind_Ok.
  set (col := (λ r, cell_of (columns cleaned) r WPOS) <$> rows cleaned).
  assert (Forall (λ c, ∃ q, c = Num q) col) as Hnum.
  { apply Forall_fmap, Forall_forall. intros r Hr.
    by destruct (clean_rows _ _ _ _ Hclean Hr) as [_ ?]. }
  assert (existsb is_str col = false) as Hstr.
  { apply existsb_false_Forall. eapply Forall_impl; [exact Hnum|].
    by intros c [q ->]. }
  unfold mean. rewrite Hstr. split.
  - intros Hempty. subst col. by rewrite Hempty.
  - intros Hrows'. pose proof (omap_number_all _ Hnum) as Hlen.
    destruct (omap number col) as [|q qs]; [|by eexists].
    subst col. rewrite length_fmap in Hlen.
    by destruct (rows cleaned).
Qed.

Lemma mean_is_missing_iff_no_row_witness :
  mean_weighted_score More.X = Ok (Sample.num 27) ∧
  (∃ q, mean_weighted_score More.X = Ok (Num q)).
Proof.
  assert (clean Sample.parse_num Sample.joined = Ok Sample.cleaned) as Hclean
    by (vm_compute; reflexivity).
  assert (getitems Sample.cleaned features = Ok More.X) as HX
    by (vm_compute; reflexivity).
  split; [vm_compute; apply f_equal, f_equal, Qc_is_canon; reflexivity|].
  by apply (proj2 (mean_is_missing_iff_no_row _ _ _ _ Hclean HX)).
Defined.

(** ** More on the joins *)

Lemma bind_length_ge {A B} (f : A → list B) (l : list A) :
  (∀ x, 1 ≤ length (f x))%nat → (length l ≤ length (l ≫= f))%nat.
Proof.
  intros Hf. induction l as [|x l IH]; csimpl; [lia|].
  rewrite length_app. specialize (Hf x). lia.
Qed.

Lemma join_row_nonempty i j keep width right_rows lrow :
  (1 ≤ length (join_row i j keep width right_rows lrow))%nat.
Proof.
  unfold join_row. destruct (filter _ right_rows); [simpl; lia|].
  rewrite length_fmap. simpl. lia.
Qed.

Lemma merge_length left right left_on right_on suffixes joined :
  merge left right left_on right_on suffixes = Ok joined →
  (length (rows left) ≤ length (rows joined))%nat.
Proof.
  unfold merge. intros (j & _ & H)%bind_Ok_inv.
  apply bind_Ok_inv in H as (i & _ & H). simpl in H.
  destruct (suffix_dups _ _ ++ suffix_dups _ _); [|done].
  injection H as <-. simpl. apply bind_length_ge. intros l. apply join_row_nonempty.
Qed.

(** X9. Whatever the tables hold, duplicated team names included, a join
    that returns has at least as many rows as the games table: a left join
    drops no game. *)
Theorem left_joins_drop_no_game games summary teams joined :
  join_tables games summary teams = Ok joined →
  (length (rows games) ≤ length (rows joined))%nat.
Proof.
  unfold join_tables. intros (opp & _ & Hjoin)%bind_Ok_inv.
  apply join_inv in Hjoin as (g1 & g2 & Hg1%merge_length & Hg2%merge_length & Hdrop).
  apply drop_columns_inv in Hdrop as [_ ->]. rewrite length_fmap.
  unfold rename_games, rename in Hg1. simpl in Hg1. lia.
Qed.

Lemma left_joins_drop_no_game_witness :
  ∃ joined,
    join_tables Sample.games Sample.summary_twice Sample.teams = Ok joined ∧
    length (rows joined) = 7 ∧
    (length (rows Sample.games) ≤ length (rows joined))%nat.
Proof.
  destruct (join_tables Sample.games Sample.summary_twice Sample.teams)
    as [e|joined] eqn:Hjoin; [by vm_compute in Hjoin|].
  exists joined. split; [done|].
  split; [|exact (left_joins_drop_no_game _ _ _ _ Hjoin)].
  vm_compute in Hjoin. by injection Hjoin as <-.
Defined.

Lemma last_ascii_append (l s : string) :
  s ≠ "" → last_ascii (l +:+ s) = last_ascii s.
Proof.
  intros Hs. induction l as [|c l IH]; [done|].
  change (last_ascii (String c (l +:+ s)) = last_ascii s).
  destruct (l +:+ s) as [|c' t] eqn:E.
  - destruct l; [by subst|discriminate E].
  - by rewrite <-IH.
Qed.

Lemma add_suffix_last to_rename suffix l target :
  suffix ≠ "" → last_ascii suffix ≠ last_ascii target →
  add_suffix to_rename suffix l = target → l = target ∧ l ∉ to_rename.
Proof.
  intros Hs Hlast. unfold add_suffix. case_decide as Hin; [|done].
  intros <-. destruct Hlast. by rewrite last_ascii_append.
Qed.

Lemma elem_of_delete_ne {A} (x y : A) (l : list A) j :
  x ∈ l → l !! j = Some y → x ≠ y → x ∈ delete j l.
Proof.
  revert j. induction l as [|z l IH]; intros j Hx Hj Hne; [by apply elem_of_nil in Hx|].
  destruct j as [|j]; simpl in *.
  - injection Hj as ->. by apply elem_of_cons in Hx as [->|Hx].
  - apply elem_of_cons in Hx as [->|Hx]; [left|right; by eapply IH].
Qed.

Lemma elem_of_keep_mask {A} (x : A) mask (l : list A) :
  x ∈ keep_mask mask l → x ∈ l.
Proof.
  revert mask. induction l as [|y l IH]; intros [|b mask] Hx;
    try by apply elem_of_nil in Hx.
  simpl in Hx. destruct b.
  - apply elem_of_cons in Hx as [->|Hx]; [left|right; by eapply IH].
  - right. by eapply IH.
Qed.

(** The first join gives the two weighted score columns new names. *)
Lemma merge_renames_the_score left right g1 :
  WPOS ∈ columns left → WPOS ∈ columns right →
  merge left right "Team" "Team" ("_x", "_y") = Ok g1 →
  WPOS ∉ columns g1.
Proof.
  intros Hleft Hright Hg1.
  destruct (merge_unique _ _ _ _ _ _ Hg1) as (i & j & _ & Hj & Hcols & _).
  rewrite bool_decide_eq_true_2 in Hcols by done. simpl in Hcols.
  assert (WPOS ∈ delete j (columns right)) as Hrcols.
  { eapply elem_of_delete_ne; [done|by apply position_Some|done]. }
  set (to_rename := filter (λ l, l ∈ delete j (columns right)) (columns left)) in *.
  assert (WPOS ∈ to_rename) as Hin by by apply list_elem_of_filter.
  rewrite Hcols. intros [Hl|Hr]%elem_of_app.
  - apply list_elem_of_fmap in Hl as (l & Hl & _). symmetry in Hl.
    apply add_suffix_last in Hl as [-> Hnot]; done.
  - apply list_elem_of_fmap in Hr as (l & Hl & _). symmetry in Hl.
    apply add_suffix_last in Hl as [-> Hnot]; done.
Qed.

Lemma join_without_the_score g1 opp joined :
  WPOS ∉ columns g1 →
  columns opp = ["Team"; OPP_ALLOWED] →
  merge g1 opp "Opponent" "Team" ("", "_opp") = Ok joined →
  WPOS ∉ columns joined.
Proof.
  intros Hg1 Hopp Hg2.
  destruct (merge_unique _ _ _ _ _ _ Hg2) as (i & j & _ & _ & Hcols & _).
  rewrite bool_decide_eq_false_2 in Hcols by done. simpl in Hcols.
  rewrite Hcols, Hopp. intros [Hl|Hr]%elem_of_app.
  - apply list_elem_of_fmap in Hl as (l & Hl & Hin).
    rewrite add_suffix_empty in Hl. by subst.
  - apply list_elem_of_fmap in Hr as (l & Hl & Hin). unfold add_suffix in Hl.
    case_decide; repeat (apply elem_of_cons in Hin as [->|Hin]; [done|]);
      by apply elem_of_nil in Hin.
Qed.

(** X10. When Games.csv and Summary.csv both have a column
    [Weighted Playoff Offense Score], no run gets past the cleaning step:
    the first join names the two copies apart, the joined table has no
    column of that name, and the run ends with an uncaught exception before
    it has printed anything (the [KeyError] of line 56 if the joins
    returned). *)
Theorem score_in_both_files_ends_the_run parse_num sklearn_installed {model}
    (fit : DataFrame → list cell → result model)
    (predict : model → DataFrame → result (list Qc)) games summary teams :
  WPOS ∈ columns games →
  WPOS ∈ columns summary →
  (∃ e, main parse_num sklearn_installed model fit predict games summary teams
        = Prog [] (inl (Uncaught e))) ∧
  (∀ joined,
     join_tables games summary teams = Ok joined →
     (WPOS ∉ columns joined) ∧
     clean parse_num joined = Raise (KeyError [WPOS]) ∧
     main parse_num sklearn_installed model fit predict games summary teams
     = Prog [] (inl (Uncaught (KeyError [WPOS])))).
Proof.
  intros Hgames Hsummary.
  assert (∀ joined, join_tables games summary teams = Ok joined →
                    WPOS ∉ columns joined) as Hno.
  { intros joined Hjoin. unfold join_tables in Hjoin.
    apply bind_Ok_inv in Hjoin as (opp & Hopp & Hjoin).
    apply join_inv in Hjoin as (g1 & g2 & Hg1 & Hg2 & Hdrop).
    destruct (teams_opp_inv _ _ Hopp) as (jT & jA & _ & _ & Hoppeq).
    apply drop_columns_inv in Hdrop as [Hcols _]. rewrite Hcols.
    intros Hin%elem_of_keep_mask. revert Hin.
    apply (join_without_the_score g1 opp g2); [|by rewrite Hoppeq|exact Hg2].
    eapply merge_renames_the_score; [| |exact Hg1].
    - unfold rename_games, rename. simpl.
      apply list_elem_of_fmap. by exists WPOS.
    - unfold rename_summary, rename. simpl.
      apply list_elem_of_fmap. by exists WPOS. }
  assert (∀ joined, join_tables games summary teams = Ok joined →
                    main parse_num sklearn_installed model fit predict
                         games summary teams
                    = Prog [] (inl (Uncaught (KeyError [WPOS])))) as Hmain.
  { intros joined Hjoin. unfold main, prepare.
    rewrite Hjoin, pbind_lift_Ok, clean_features.
    by rewrite (getitem_missing _ _ (Hno _ Hjoin)). }
  split.
  - destruct (join_tables games summary teams) as [e|joined] eqn:Hjoin.
    + exists e. unfold main, prepare. by rewrite Hjoin.
    + exists (KeyError [WPOS]). by apply (Hmain joined).
  - intros joined Hjoin. split; [by apply Hno|]. split; [|by apply (Hmain joined)].
    rewrite clean_features. by rewrite (getitem_missing _ _ (Hno _ Hjoin)).
Qed.

Lemma score_in_both_files_ends_the_run_witness :
  (WPOS ∈ columns Sample.games_scored) ∧ (WPOS ∈ columns Sample.summary) ∧
  main Sample.parse_num true Sample.model Sample.fit Sample.predict
       Sample.games_scored Sample.summary Sample.teams
  = Prog [] (inl (Uncaught (KeyError [WPOS]))).
Proof.
  assert (WPOS ∈ columns Sample.games_scored) as Hgames
    by (apply (bool_decide_unpack _); vm_compute; done).
  assert (WPOS ∈ columns Sample.summary) as Hsummary
    by (apply (bool_decide_unpack _); vm_compute; done).
  split; [done|]. split; [done|].
  refine (proj2 (proj2 (proj2 (score_in_both_files_ends_the_run Sample.parse_num true
            Sample.fit Sample.predict _ _ Sample.teams Hgames Hsummary)
            Sample.joined_scored _))).
  vm_compute. reflexivity.
Defined.

(** ** More on the verdict *)

Lemma winner_margin_cases (a b : Qc) :
  ((b < a)%Qc ∧ winner_margin a b = (PATRIOTS, (a - b)%Qc)) ∨
  ((a < b)%Qc ∧ winner_margin a b = (SEAHAWKS, (b - a)%Qc)) ∨
  (a = b ∧ winner_margin a b = ("Tie", 0%Qc)).
Proof.
  unfold winner_margin.
  destruct (decide (b < a)%Qc) as [Hba|Hba]; [by left|].
  destruct (decide (a < b)%Qc) as [Hab|Hab]; [by right; left|].
  right; right. split; [|done].
  by apply Qcle_antisym; apply Qcnot_lt_le.
Qed.

Lemma Qc_sub_pos (a b : Qc) : (b < a)%Qc → (0 < a - b)%Qc.
Proof. intros H. by apply Qclt_minus_iff in H. Qed.

Lemma Qclt_ne (a b : Qc) : (a < b)%Qc → a ≠ b.
Proof. intros H ->. by apply Qclt_irrefl in H. Qed.

(** On rationals the verdict is [winner_margin]. *)
Lemma winner_margin_verdict (p q : Qc) :
  winner_margin p q = verdict Qc_gt Qcminus 0%Qc p q.
Proof.
  unfold winner_margin, verdict, Qc_gt.
  destruct (decide (q < p)%Qc) as [Hqp|Hqp].
  - by rewrite bool_decide_eq_true_2.
  - rewrite (bool_decide_eq_false_2 _ Hqp).
    destruct (decide (p < q)%Qc) as [Hpq|Hpq].
    + by rewrite bool_decide_eq_true_2.
    + by rewrite bool_decide_eq_false_2.
Qed.

(** X11. The verdict treats the two teams alike, on any numbers on which
    two scores are never each greater than the other, float64 with its
    values that are not numbers included: exchanging the two scores
    exchanges the winners and keeps the margin.  The result is a tie exactly
    when neither score is greater than the other, be they equal or
    unordered, and the margin is then the zero of line 182.  On rationals
    the verdict is [winner_margin]; the margin is never negative there, and
    zero exactly in a tie. *)
Theorem verdict_is_symmetric {num : Type} (gt : num → num → bool)
    (sub : num → num → num) (zero a b : num) :
  (gt a b = true → gt b a = false) →
  let v := verdict gt sub zero in
  (v a b).2 = (v b a).2 ∧
  ((v a b).1 = "Tie" ↔ gt a b = false ∧ gt b a = false) ∧
  ((v a b).1 = "Tie" → v a b = ("Tie", zero) ∧ v b a = ("Tie", zero)) ∧
  ((v a b).1 = "New England Patriots" ↔ (v b a).1 = "Seattle Seahawks") ∧
  ((v a b).1 = "Seattle Seahawks" ↔ (v b a).1 = "New England Patriots") ∧
  (∀ p q : Qc,
     winner_margin p q = verdict Qc_gt Qcminus 0%Qc p q ∧
     (0 ≤ margin p q)%Qc ∧
     (margin p q = 0%Qc ↔ winner p q = "Tie")).
Proof.
  intros Hasym v. subst v. unfold verdict.
  assert (∀ p q : Qc,
     winner_margin p q = verdict Qc_gt Qcminus 0%Qc p q ∧
     (0 ≤ margin p q)%Qc ∧
     (margin p q = 0%Qc ↔ winner p q = "Tie")) as Hrat.
  { intros p q. split; [apply winner_margin_verdict|]. unfold winner, margin.
    destruct (winner_margin_cases p q) as [[Hlt ->]|[[Hlt ->]|[Heq ->]]]; simpl.
    - split; [by apply Qclt_le_weak, Qc_sub_pos|]. split; [|done].
      intros H0. pose proof (Qc_sub_pos _ _ Hlt) as Hpos. rewrite H0 in Hpos.
      by destruct (Qclt_irrefl _ Hpos).
    - split; [by apply Qclt_le_weak, Qc_sub_pos|]. split; [|done].
      intros H0. pose proof (Qc_sub_pos _ _ Hlt) as Hpos. rewrite H0 in Hpos.
      by destruct (Qclt_irrefl _ Hpos).
    - split; [apply Qcle_refl|]. by split. }
  destruct (gt a b) eqn:Hab.
  - rewrite (Hasym eq_refl). simpl.
    split; [done|]. split; [split; [done|by intros [? _]]|].
    do 3 (split; [done|]). exact Hrat.
  - destruct (gt b a) eqn:Hba; simpl.
    + split; [done|]. split; [split; [done|by intros [_ ?]]|].
      do 3 (split; [done|]). exact Hrat.
    + do 5 (split; [done|]). exact Hrat.
Qed.

Lemma verdict_is_symmetric_witness :
  (Unordered.gt Unordered.not_a_number (Some (Q2Qc 24)) = true →
   Unordered.gt (Some (Q2Qc 24)) Unordered.not_a_number = false) ∧
  verdict Unordered.gt Unordered.sub Unordered.zero
    Unordered.not_a_number (Some (Q2Qc 24)) = ("Tie", Some (Q2Qc 0)) ∧
  verdict Unordered.gt Unordered.sub Unordered.zero
    (Some (Q2Qc 24)) Unordered.not_a_number = ("Tie", Some (Q2Qc 0)).
Proof.
  assert (Unordered.gt Unordered.not_a_number (Some (Q2Qc 24)) = true →
          Unordered.gt (Some (Q2Qc 24)) Unordered.not_a_number = false) as Hasym
    by done.
  split; [exact Hasym|].
  destruct (verdict_is_symmetric Unordered.gt Unordered.sub Unordered.zero
              Unordered.not_a_number (Some (Q2Qc 24)) Hasym)
    as (_ & _ & Htie & _).
  apply Htie. reflexivity.
Defined.

(** X12. The closing lines of the report are decided by the verdict alone.
    Between the two rules, a tie prints the tie and nothing about a margin,
    and the margin is then zero; any other verdict prints the winner, which
    is then one of the two teams, and the margin, which is then positive.
    The report always returns. *)
Theorem report_prints_a_margin_unless_tie (a b : Qc) :
  report a b
  = Prog (if decide (winner a b = "Tie")
          then [Text (newline +:+ rule); PredictedResult "Tie";
                Text (rule +:+ newline)]
          else [Text (newline +:+ rule); PredictedWinner (winner a b);
                PredictedMargin (margin a b); Text (rule +:+ newline)])
         (inr tt) ∧
  (winner a b ≠ "Tie" →
   (winner a b = "New England Patriots" ∨ winner a b = "Seattle Seahawks") ∧
   (0 < margin a b)%Qc) ∧
  (winner a b = "Tie" → margin a b = 0%Qc).
Proof.
  unfold report, winner, margin.
  destruct (winner_margin_cases a b) as [[Hlt ->]|[[Hlt ->]|[Heq ->]]]; simpl.
  - split; [done|]. split; [|done].
    intros _. split; [by left|by apply Qc_sub_pos].
  - split; [done|]. split; [|done].
    intros _. split; [by right|by apply Qc_sub_pos].
  - split; [done|]. by split.
Qed.

Lemma report_prints_a_margin_unless_tie_witness :
  (winner (Q2Qc 17) (Q2Qc 24) ≠ "Tie") ∧
  (winner (Q2Qc 17) (Q2Qc 24) = "Seattle Seahawks") ∧
  (0 < margin (Q2Qc 17) (Q2Qc 24))%Qc.
Proof.
  assert (winner (Q2Qc 17) (Q2Qc 24) ≠ "Tie") as Hno by done.
  split; [exact Hno|].
  destruct (proj1 (proj2 (report_prints_a_margin_unless_tie (Q2Qc 17) (Q2Qc 24)))
              Hno)
    as [[Hpat|Hsea] Hpos]; [discriminate Hpat|by split].
Defined.

(** ** More on the lookups *)

Lemma filter_head {A} (P : A → Prop) `{!∀ x, Decision (P x)} (l : list A) x xs :
  filter P l = x :: xs →
  ∃ k, l !! k = Some x ∧ P x ∧ ∀ k' y, (k' < k)%nat → l !! k' = Some y → ¬ P y.
Proof.
  induction l as [|z l IH]; [done|].
  rewrite filter_cons. case_decide as Hz.
  - intros [= -> _]. exists 0. split; [done|]. split; [done|]. intros; lia.
  - intros (k & Hk & Hx & Hfirst)%IH. exists (S k).
    split; [done|]. split; [done|].
    intros [|k'] y Hlt Hy; [by injection Hy as <-|].
    apply (Hfirst k'); [lia|done].
Qed.

Lemma team_row_no_column df name :
  "Team" ∉ columns df → team_row df name = Raise (KeyError ["Team"]).
Proof.
  intros Hno%position_None. unfold team_row, where_eq, locate. by rewrite Hno.
Qed.

(** X13. Looking a team up returns the first row, in the order of the table,
    whose Team cell is the name, with the labels of the table; so a team
    listed twice is read from its first row.  It raises [IndexError] when
    the table has a Team column and no row for the name, and [KeyError]
    when the table has no Team column. *)
Theorem team_row_is_the_first_match df name :
  (∀ s, team_row df name = Ok s →
     ∃ i k,
       position "Team" (columns df) = Some i ∧
       index s = columns df ∧
       rows df !! k = Some (values s) ∧
       at_pos i (values s) = Str name ∧
       ∀ k' r, (k' < k)%nat → rows df !! k' = Some r → at_pos i r ≠ Str name) ∧
  (team_row df name = Raise IndexError ↔
     "Team" ∈ columns df ∧ ¬ has_team df name) ∧
  (team_row df name = Raise (KeyError ["Team"]) ↔ "Team" ∉ columns df).
Proof.
  destruct (decide ("Team" ∈ columns df)) as [Hin|Hno].
  - destruct (position_is_Some _ _ Hin) as [i Hi].
    split; [|split].
    + intros s Hs. exists i. unfold team_row, where_eq, locate in Hs.
      rewrite Hi, !bind_Ok in Hs. unfold iloc0 in Hs. simpl in Hs.
      destruct (filter _ (rows df)) as [|r rs] eqn:E; [done|].
      injection Hs as <-. simpl.
      apply filter_head in E as (k & Hk & Hr & Hfirst). by exists k.
    + split.
      * intros Hraise. split; [done|]. intros Hteam.
        destruct (team_row_found _ _ _ Hi Hteam) as [s Hs]. congruence.
      * intros [_ Habsent]. by eapply team_row_absent.
    + split; [|done]. intros Hraise.
      destruct (decide (has_team df name)) as [Hteam|Habsent].
      * destruct (team_row_found _ _ _ Hi Hteam) as [s Hs]. congruence.
      * rewrite (team_row_absent _ _ _ Hi Habsent) in Hraise. done.
  - rewrite (team_row_no_column _ _ Hno). split; [done|]. split; split; try done.
    by intros [? _].
Qed.

Lemma team_row_is_the_first_match_witness :
  ∃ s, team_row Sample.summary_twice PATRIOTS = Ok s ∧
       rows Sample.summary_twice !! 0 = Some (values s) ∧
       rows Sample.summary_twice !! 2 = Some (values s).
Proof.
  destruct (team_row Sample.summary_twice PATRIOTS) as [e|s] eqn:Hs;
    [by vm_compute in Hs|].
  exists s. split; [done|].
  destruct (proj1 (team_row_is_the_first_match Sample.summary_twice PATRIOTS) s Hs)
    as (i & k & _ & _ & Hk & _).
  vm_compute in Hs. injection Hs as <-. by split.
Defined.

Lemma elem_of_unique (c : cell) (l : list cell) : c ∈ unique l ↔ c ∈ l.
Proof.
  induction l as [|d l IH]; [done|]. simpl.
  rewrite !elem_of_cons, list_elem_of_filter, IH.
  destruct (decide (c = d)) as [->|Hne]; [split; intros; by left|].
  split; [intros [?|[_ ?]]; [by left|by right]|intros [?|?]; [by left|by right]].
Qed.

Lemma NoDup_unique (l : list cell) : NoDup (unique l).
Proof.
  induction l as [|d l IH]; simpl; [constructor|].
  apply NoDup_cons. split; [|by apply NoDup_filter].
  intros [Hne _]%list_elem_of_filter. done.
Qed.

Lemma take_10_is_sample (col : list cell) : is_sample (take 10 (unique col)) col.
Proof.
  split; [rewrite length_take; lia|].
  split; [eapply sublist_NoDup; [apply NoDup_unique|apply sublist_take]|].
  split; [|split].
  - intros c Hc. apply elem_of_unique.
    eapply elem_of_sublist; [exact Hc|apply sublist_take].
  - apply prefix_take.
  - intros Hlen c Hc. rewrite take_ge by done. by apply elem_of_unique.
Qed.

(** X14. When a lookup finds no row, the two lines of available teams hold
    samples of the Team columns of the summary table and of the teams table:
    at most ten values each, none twice, in the order of first occurrence,
    and every value of the column when it has at most ten distinct ones. *)
Theorem available_teams_are_samples summary teams i j :
  position "Team" (columns summary) = Some i →
  position "Team" (columns teams) = Some j →
  ∃ s t,
    lookup_handler summary teams IndexError
    = Prog [Text could_not_find; AvailableTeamsSummary s; AvailableTeamsTeams t]
           (inl (SysExit 1)) ∧
    is_sample s (team_column summary) ∧
    is_sample t (team_column teams).
Proof.
  intros Hi Hj. eexists _, _. split; [by eapply lookup_handler_IndexError|].
  split; apply take_10_is_sample.
Qed.

Lemma available_teams_are_samples_witness :
  ∃ s t,
    lookup_handler Sample.summary_twice Sample.teams IndexError
    = Prog [Text could_not_find; AvailableTeamsSummary s; AvailableTeamsTeams t]
           (inl (SysExit 1)) ∧
    is_sample s [Str PATRIOTS; Str SEAHAWKS; Str PATRIOTS] ∧
    is_sample t [Str PATRIOTS; Str SEAHAWKS].
Proof.
  exact (available_teams_are_samples Sample.summary_twice Sample.teams 0 0
           eq_refl eq_refl).
Defined.

Lemma team_row_Ok_has_team df name i s :
  position "Team" (columns df) = Some i →
  team_row df name = Ok s → has_team df name.
Proof.
  intros Hi Hs. destruct (decide (has_team df name)) as [|Habsent]; [done|].
  by rewrite (team_row_absent _ _ _ Hi Habsent) in Hs.
Qed.

(** X15. In tables that have a Team column the four lookups succeed exactly
    when each of the two teams has a row in the summary table and in the
    teams table; they then print nothing and return, for each team and
    table, the row that the lookup of that team in that table gives. *)
Theorem lookups_succeed_iff_teams_present summary teams i j :
  position "Team" (columns summary) = Some i →
  position "Team" (columns teams) = Some j →
  (has_team summary PATRIOTS ∧ has_team teams SEAHAWKS ∧
   has_team summary SEAHAWKS ∧ has_team teams PATRIOTS) ↔
  ∃ pat_off sea_def sea_off pat_def,
    lookup summary teams = Prog [] (inr (pat_off, sea_def, sea_off, pat_def)) ∧
    team_row summary PATRIOTS = Ok pat_off ∧
    team_row teams SEAHAWKS = Ok sea_def ∧
    team_row summary SEAHAWKS = Ok sea_off ∧
    team_row teams PATRIOTS = Ok pat_def.
Proof.
  intros Hi Hj. split.
  - intros (H1 & H2 & H3 & H4).
    destruct (team_row_found _ _ _ Hi H1) as [pat_off Hpat_off].
    destruct (team_row_found _ _ _ Hj H2) as [sea_def Hsea_def].
    destruct (team_row_found _ _ _ Hi H3) as [sea_off Hsea_off].
    destruct (team_row_found _ _ _ Hj H4) as [pat_def Hpat_def].
    exists pat_off, sea_def, sea_off, pat_def.
    split; [|done]. unfold lookup, lookup_body.
    by rewrite Hpat_off, Hsea_def, Hsea_off, Hpat_def, !pbind_lift_Ok.
  - intros (pat_off & sea_def & sea_off & pat_def & _ & H1 & H2 & H3 & H4).
    repeat split; by eapply team_row_Ok_has_team.
Qed.

Lemma lookups_succeed_iff_teams_present_witness :
  ∃ pat_off sea_def sea_off pat_def,
    lookup Sample.summary Sample.teams
    = Prog [] (inr (pat_off, sea_def, sea_off, pat_def)) ∧
    team_row Sample.summary PATRIOTS = Ok pat_off ∧
    team_row Sample.teams SEAHAWKS = Ok sea_def ∧
    team_row Sample.summary SEAHAWKS = Ok sea_off ∧
    team_row Sample.teams PATRIOTS = Ok pat_def.
Proof.
  apply (lookups_succeed_iff_teams_present Sample.summary Sample.teams 0 0
           eq_refl eq_refl).
  repeat split; apply (bool_decide_unpack _); vm_compute; done.
Defined.

(** ** The opponent-defense projection *)

(** X16. The projection of the teams table keeps two columns and every row:
    the team name under [Team] and the average of points allowed under
    [opp_avg_points_allowed], each row reduced to these two cells.  It
    raises exactly when one of the two columns is not in the table, with a
    [KeyError] that lists the absent ones. *)
Theorem teams_opp_keeps_two_columns teams :
  (∀ opp, teams_opp teams = Ok opp →
     columns opp = ["Team"; "opp_avg_points_allowed"] ∧
     rows opp
     = (λ r, [cell_of (columns teams) r "Team";
              cell_of (columns teams) r "Average Points Allowed Per Game"])
       <$> rows teams) ∧
  (is_Some (position "Team" (columns teams)) ∧
   is_Some (position "Average Points Allowed Per Game" (columns teams)) ↔
   ∃ opp, teams_opp teams = Ok opp) ∧
  (∀ e, teams_opp teams = Raise e →
     e = KeyError (filter (λ n, n ∉ columns teams)
                          ["Team"; "Average Points Allowed Per Game"])).
Proof.
  split; [|split].
  - intros opp Hopp.
    destruct (teams_opp_inv _ _ Hopp) as (jT & jA & HjT & HjA & ->).
    split; [done|]. simpl. apply list_fmap_ext. intros _ r _.
    by rewrite (cell_of_position _ _ _ _ HjT), (cell_of_position _ _ _ _ HjA).
  - split.
    + intros [HT HA]. unfold teams_opp.
      destruct (getitems_present teams ["Team"; AVG_ALLOWED]) as (sel & -> & _);
        [|by eexists].
      repeat constructor.
      * destruct (decide ("Team" ∈ columns teams)) as [|Hno%position_None]; [done|].
        rewrite Hno in HT. by destruct HT.
      * destruct (decide (AVG_ALLOWED ∈ columns teams)) as [|Hno%position_None];
          [done|].
        unfold AVG_ALLOWED in Hno. rewrite Hno in HA. by destruct HA.
    + intros [opp Hopp].
      destruct (teams_opp_inv _ _ Hopp) as (jT & jA & HjT & HjA & _).
      unfold AVG_ALLOWED in HjA. rewrite HjT, HjA. by split.
  - intros e. unfold teams_opp, getitems.
    destruct (positions _ (columns teams)) as [e'|ps] eqn:Hps; [|done].
    intros [= <-]. by apply positions_Raise in Hps as [-> _].
Qed.

Lemma teams_opp_keeps_two_columns_witness :
  ∃ opp, teams_opp Sample.teams = Ok opp ∧
         rows opp = [[Str PATRIOTS; Sample.num 18]; [Str SEAHAWKS; Sample.num 20]].
Proof.
  destruct (proj1 (proj1 (proj2 (teams_opp_keeps_two_columns Sample.teams)))
              (conj (mk_is_Some _ 0 eq_refl) (mk_is_Some _ 1 eq_refl)))
    as [opp Hopp].
  exists opp. split; [done|]. vm_compute in Hopp. by injection Hopp as <-.
Defined.

(** ** The columns of the joined table *)

Lemma add_suffix_nil suffix l : add_suffix [] suffix l = l.
Proof. unfold add_suffix. by rewrite decide_False by apply not_elem_of_nil. Qed.

Lemma keep_mask_filter {A} (P : A → Prop) `{!∀ x, Decision (P x)} (l : list A) :
  keep_mask ((λ x, bool_decide (P x)) <$> l) l = filter P l.
Proof.
  induction l as [|x l IH]; [done|]. csimpl. rewrite filter_cons, IH.
  destruct (decide (P x)) as [HP|HP].
  - by rewrite bool_decide_eq_true_2.
  - by rewrite bool_decide_eq_false_2.
Qed.

Lemma filter_all {A} (P : A → Prop) `{!∀ x, Decision (P x)} (l : list A) :
  Forall P l → filter P l = l.
Proof.
  induction 1 as [|x l Hx _ IH]; [done|]. by rewrite filter_cons, decide_True, IH.
Qed.

Lemma filter_none {A} (P : A → Prop) `{!∀ x, Decision (P x)} (l : list A) :
  Forall (λ x, ¬ P x) l → filter P l = [].
Proof.
  induction 1 as [|x l Hx _ IH]; [done|]. by rewrite filter_cons, decide_False.
Qed.

Lemma not_elem_of_delete_NoDup {A} (x : A) (l : list A) j :
  NoDup l → l !! j = Some x → x ∉ delete j l.
Proof.
  revert j. induction l as [|y l IH]; intros j Hnd Hj; [done|].
  apply NoDup_cons in Hnd as [Hy Hnd]. destruct j as [|j]; simpl in *.
  - by injection Hj as ->.
  - intros [->|Hin]%elem_of_cons.
    + apply Hy. by eapply list_elem_of_lookup_2.
    + by eapply IH.
Qed.

Lemma elem_of_delete {A} (x : A) (l : list A) j : x ∈ delete j l → x ∈ l.
Proof. intros Hx. eapply elem_of_sublist; [exact Hx|apply sublist_delete]. Qed.

(** X17. When the renamed games and summary tables share no label but
    [Team], the summary table has no label twice, and neither table has a
    column [opp_avg_points_allowed] or [Team_opp], the joined table has, in
    this order: the columns of the games table, those of the summary table
    without its Team column, and [opp_avg_points_allowed]; no label gets a
    suffix. *)
Theorem joined_columns_without_clashes games summary teams joined j :
  join_tables games summary teams = Ok joined →
  position "Team" (columns (rename_summary summary)) = Some j →
  NoDup (columns (rename_summary summary)) →
  (∀ l, l ∈ columns (rename_games games) →
        l ∈ columns (rename_summary summary) → l = "Team") →
  "opp_avg_points_allowed" ∉ columns (rename_games games) →
  "opp_avg_points_allowed" ∉ columns (rename_summary summary) →
  "Team_opp" ∉ columns (rename_games games) →
  "Team_opp" ∉ columns (rename_summary summary) →
  columns joined
  = columns (rename_games games)
    ++ delete j (columns (rename_summary summary))
    ++ ["opp_avg_points_allowed"].
Proof.
  intros Hjoin Hj Hnd Hshared HaG HaS HtG HtS. unfold join_tables in Hjoin.
  apply bind_Ok_inv in Hjoin as (opp & Hopp & Hjoin).
  apply join_inv in Hjoin as (g1 & g2 & Hg1 & Hg2 & Hdrop).
  destruct (teams_opp_inv _ _ Hopp) as (jT & jA & _ & _ & Hoppeq).
  destruct (merge_unique _ _ _ _ _ _ Hg1) as (i1 & j1 & Hi1 & Hj1 & Hcols1 & _).
  destruct (merge_unique _ _ _ _ _ _ Hg2) as (i2 & j2 & _ & _ & Hcols2 & _).
  apply drop_columns_inv in Hdrop as [Hcols _].
  assert (j1 = j) as -> by congruence.
  rewrite bool_decide_eq_true_2 in Hcols1 by done.
  rewrite bool_decide_eq_false_2 in Hcols2 by done.
  set (gcols := columns (rename_games games)) in *.
  set (scols := columns (rename_summary summary)) in *.
  simpl in Hcols1, Hcols2.
  assert (filter (λ l, l ∈ delete j scols) gcols = []) as Hnone.
  { apply filter_none, Forall_forall. intros l Hl Hin.
    assert (l = "Team") as -> by (apply Hshared; [done|by eapply elem_of_delete]).
    revert Hin. apply not_elem_of_delete_NoDup; [done|by apply position_Some]. }
  rewrite Hnone in Hcols1.
  assert (columns g1 = gcols ++ delete j scols) as Hg1cols.
  { rewrite Hcols1. f_equal; (etrans; [|apply list_fmap_id]);
      apply list_fmap_ext; intros; apply add_suffix_nil. }
  assert ("Team" ∈ columns g1) as HTeam.
  { rewrite Hg1cols. apply elem_of_app. left.
    eapply list_elem_of_lookup_2, position_Some, Hi1. }
  assert (OPP_ALLOWED ∉ columns g1) as Hallowed.
  { rewrite Hg1cols. intros [?|?%elem_of_delete]%elem_of_app; done. }
  assert ("Team_opp" ∉ columns g1) as Hopp1.
  { rewrite Hg1cols. intros [?|?%elem_of_delete]%elem_of_app; done. }
  assert (columns g2 = columns g1 ++ ["Team_opp"; OPP_ALLOWED]) as Hg2cols.
  { rewrite Hcols2, Hoppeq. simpl. f_equal.
    - etrans; [|apply list_fmap_id]. apply list_fmap_ext. intros. apply add_suffix_empty.
    - unfold add_suffix. rewrite decide_True.
      + rewrite decide_False; [done|].
        by intros [_ ?]%list_elem_of_filter.
      + apply list_elem_of_filter. split; [left|done]. }
  rewrite Hcols, keep_mask_filter, Hg2cols, filter_app.
  rewrite (filter_all _ (columns g1)).
  - rewrite Hg1cols, <-app_assoc. by do 2 f_equal.
  - apply Forall_forall. intros l Hl ->%list_elem_of_singleton. done.
Qed.

Lemma joined_columns_without_clashes_witness :
  join_tables Sample.games Sample.summary Sample.teams = Ok Sample.joined ∧
  columns Sample.joined
  = ["Team"; "Opponent"; "game_num"; "points_scored"; "opp_def_tier";
     "Weighted Playoff Offense Score"; "Offensive Momentum";
     "opp_avg_points_allowed"].
Proof.
  assert (join_tables Sample.games Sample.summary Sample.teams = Ok Sample.joined)
    as Hjoin by (vm_compute; reflexivity).
  split; [done|].
  apply (joined_columns_without_clashes _ _ _ _ 0 Hjoin); try reflexivity;
    try (apply (bool_decide_unpack _); vm_compute; done).
  apply (proj1 (Forall_forall
                  (λ l, l ∈ columns (rename_summary Sample.summary) → l = "Team")
                  (columns (rename_games Sample.games)))).
  apply (bool_decide_unpack _). vm_compute. done.
Defined.

(** ** The number of games loaded *)





Lemma getitems_no_rows df names :
  Forall (λ n, n ∈ columns df) names → rows df = [] →
  getitems df names = Ok (mkFrame names []).
Proof.
  intros Hall Hrows. unfold getitems.
  destruct (positions_Ok _ _ Hall) as [-> _]. by rewrite Hrows.
Qed.

Lemma getitem_no_rows df name :
  name ∈ columns df → rows df = [] → getitem df name = Ok [].
Proof.
  intros [i Hi]%position_is_Some Hrows. unfold getitem. by rewrite Hi, Hrows.
Qed.

(** X19. Nothing stands between an emptied training table and the fit: when
    cleaning keeps no row, the run prints that 0 games were loaded and calls
    the fit on a table of the four features without rows and an empty
    target; an exception of the fit is then reported by the handlers of the
    training block and the run exits with status 1. *)
Theorem no_usable_game_reaches_the_fit parse_num {model}
    (fit : DataFrame → list cell → result model)
    (predict : model → DataFrame → result (list Qc))
    games summary teams joined cleaned e :
  join_tables games summary teams = Ok joined →
  clean parse_num joined = Ok cleaned →
  rows cleaned = [] →
  "points_scored" ∈ columns cleaned →
  fit (mkFrame features []) [] = Raise e →
  main parse_num true model fit predict games summary teams
  = Prog (LoadedGames 0 :: Text features_line ::
          match e with
          | KeyError _ => [ErrMissingColumn e; AvailableColumns (columns cleaned)]
          | _ => [ErrTraining e; Traceback e]
          end)
         (inl (SysExit 1)).
Proof.
  intros Hjoin Hclean Hrows Htarget Hfit.
  destruct (clean_columns _ _ _ Hclean) as [_ Hall].
  unfold main, prepare.
  rewrite Hjoin, pbind_lift_Ok, Hclean, pbind_lift_Ok, Hrows.
  unfold import_sklearn, train, train_body.
  rewrite (getitems_no_rows _ _ Hall Hrows), (getitem_no_rows _ _ Htarget Hrows).
  rewrite pbind_ret, !pbind_lift_Ok, (nothing_missing _ _ Hall), Hfit.
  by destruct e.
Qed.

Lemma no_usable_game_reaches_the_fit_witness :
  main Sample.parse_num true Sample.model Sample.fit Sample.predict
       More.games_dash Sample.summary Sample.teams
  = Prog [LoadedGames 0; Text features_line;
          ErrTraining (ValueError "Found array with 0 sample(s)");
          Traceback (ValueError "Found array with 0 sample(s)")]
         (inl (SysExit 1)).
Proof.
  destruct (join_tables More.games_dash Sample.summary Sample.teams)
    as [e|joined] eqn:Hjoin; [by vm_compute in Hjoin|].
  destruct (clean Sample.parse_num joined) as [e|cleaned] eqn:Hclean.
  { vm_compute in Hjoin. injection Hjoin as <-. by vm_compute in Hclean. }
  assert (rows cleaned = [] ∧ "points_scored" ∈ columns cleaned) as [Hrows Htarget].
  { vm_compute in Hjoin. injection Hjoin as <-.
    vm_compute in Hclean. injection Hclean as <-.
    split; [done|]. apply (bool_decide_unpack _). vm_compute. done. }
  exact (no_usable_game_reaches_the_fit Sample.parse_num Sample.fit Sample.predict
           _ _ _ joined cleaned _ Hjoin Hclean Hrows Htarget eq_refl).
Defined.

(** ** The rows behind the two feature vectors *)

Lemma pbind_say {B} (l : line) (k : unit → prog B) :
  (say l ≫= k) = Prog (l :: output (k tt)) (outcome (k tt)).
Proof. reflexivity. Qed.

Lemma lookup_handler_stops summary teams e o v :
  lookup_handler summary teams e ≠ Prog o (inr v).
Proof.
  unfold lookup_handler. destruct e; try done.
  destruct (getitem summary "Team") as [e|s]; [done|].
  rewrite pbind_say, pbind_lift_Ok, pbind_say. simpl.
  by destruct (getitem teams "Team") as [e|t].
Qed.

Lemma lookup_inv summary teams o pat_off sea_def sea_off pat_def :
  lookup summary teams = Prog o (inr (pat_off, sea_def, sea_off, pat_def)) →
  o = [] ∧
  team_row summary PATRIOTS = Ok pat_off ∧
  team_row teams SEAHAWKS = Ok sea_def ∧
  team_row summary SEAHAWKS = Ok sea_off ∧
  team_row teams PATRIOTS = Ok pat_def.
Proof.
  unfold lookup, lookup_body.
  destruct (team_row summary PATRIOTS) as [e|r1];
    [rewrite pbind_lift_Raise, try_except_throw;
     intros H; by apply lookup_handler_stops in H|].
  rewrite pbind_lift_Ok.
  destruct (team_row teams SEAHAWKS) as [e|r2];
    [rewrite pbind_lift_Raise, try_except_throw;
     intros H; by apply lookup_handler_stops in H|].
  rewrite pbind_lift_Ok.
  destruct (team_row summary SEAHAWKS) as [e|r3];
    [rewrite pbind_lift_Raise, try_except_throw;
     intros H; by apply lookup_handler_stops in H|].
  rewrite pbind_lift_Ok.
  destruct (team_row teams PATRIOTS) as [e|r4];
    [rewrite pbind_lift_Raise, try_except_throw;
     intros H; by apply lookup_handler_stops in H|].
  rewrite pbind_lift_Ok. by intros [= <- <- <- <- <-].
Qed.

(** X20. After lookups that returned, the rows of the teams table read again
    at lines 142 and 159 are the rows already held: building a feature table
    does not raise for a missing team, the fallback of each team is read
    from its own row of the teams table, and the two tables mirror each
    other: each has the team's own score and momentum and the other team's
    points allowed and tier. *)
Theorem feature_tables_mirror_each_other parse_num summary teams o
    pat_off sea_def sea_off pat_def :
  lookup summary teams = Prog o (inr (pat_off, sea_def, sea_off, pat_def)) →
  pat_df parse_num teams pat_off sea_def
  = (w ← get_weighted_score parse_num pat_off pat_def;
     mo ← series_get pat_off "Offensive Momentum";
     a ← series_get sea_def "Average Points Allowed Per Game";
     t ← series_get sea_def "Defensive Tier Rank";
     Ok (mkFrame features [[w; mo; a; t]])) ∧
  sea_df parse_num teams sea_off pat_def
  = (w ← get_weighted_score parse_num sea_off sea_def;
     mo ← series_get sea_off "Offensive Momentum";
     a ← series_get pat_def "Average Points Allowed Per Game";
     t ← series_get pat_def "Defensive Tier Rank";
     Ok (mkFrame features [[w; mo; a; t]])).
Proof.
  intros (_ & _ & Hsea_def & _ & Hpat_def)%lookup_inv.
  unfold pat_df, sea_df, feature_frame.
  by rewrite Hpat_def, Hsea_def, !bind_Ok.
Qed.

Lemma feature_tables_mirror_each_other_witness :
  pat_df Sample.parse_num Sample.teams Sample.pat_off Sample.sea_def
  = Ok (mkFrame features
          [[Sample.num 27; Sample.num 3; Sample.num 20; Sample.num 2]]) ∧
  sea_df Sample.parse_num Sample.teams Sample.sea_off Sample.pat_def
  = Ok (mkFrame features
          [[Sample.num 25; Sample.num 2; Sample.num 18; Sample.num 1]]).
Proof.
  destruct (feature_tables_mirror_each_other Sample.parse_num Sample.summary
              Sample.teams [] Sample.pat_off Sample.sea_def Sample.sea_off
              Sample.pat_def) as [-> ->]; [vm_compute; reflexivity|].
  split; vm_compute; reflexivity.
Defined.
